(** * LinearElasticitySolver: a shallow embedding and its properties

    The development follows [LinearElasticitySolver.py].  Python numbers are
    read as real numbers; Python's [/] raises [ZeroDivisionError] on a zero
    divisor and that is kept.  Rounding and overflow are lost in this
    reading: the module [Binary64] puts the two divisions of the Lame
    parameters on binary64 numbers, where they can be run.  Objects built
    with the UFL operators of dolfin ([grad], [sym], [tr], [inner], ...) are
    symbolic trees, as they are in the program; their pointwise meaning is
    given by [eval]. *)

From Stdlib Require Import Reals Lra Lia List String Bool Arith.
From stdpp Require Import base gmap strings.
From Stdlib Require PrimFloat.
Import ListNotations.

Local Open Scope string_scope.
Local Open Scope list_scope.
Local Open Scope R_scope.

(** ** Exceptions and the error monad *)

(** The exceptions of Python and [SolverError] of the base module; every
    exception raised inside dolfin or UFL is [EngineError]. *)
Inductive exn : Type :=
| ZeroDivisionError
| TypeError
| AttributeError (attr : string)
| NameError (name : string)
| SolverError (msg : string)
| EngineError.

Inductive result (A : Type) : Type :=
| Ok (a : A)
| Err (e : exn).
Arguments Ok {A} a.
Arguments Err {A} e.

Definition rbind {A B} (k : A -> result B) (r : result A) : result B :=
  match r with
  | Ok a => k a
  | Err e => Err e
  end.

#[global] Instance result_ret : MRet result := fun _ a => Ok a.
#[global] Instance result_bind : MBind result := fun _ _ k r => rbind k r.

Definition raises {A} (r : result A) : Prop :=
  match r with
  | Ok _ => False
  | Err _ => True
  end.

(** ** Python numbers *)

(** [x / y] on Python numbers (true division is in force in the module). *)
Definition pydiv (x y : R) : result R :=
  if Req_dec_T y 0 then Err ZeroDivisionError else Ok (x / y).

(** ** Material *)

Record Material : Type := mkMaterial {
  elastic_modulus : R;
  poisson_ratio : R
}.

(** Lines 72-75 of [sigma] (the same four lines open [energy] and
    [update_boundary_conditions]): the shear modulus and the first Lame
    parameter, in the order the program computes them. *)
Definition lame_parameters (m : Material) : result (R * R) :=
  let elasticity := elastic_modulus m in
  let nu := poisson_ratio m in
  mu ← pydiv elasticity (2 * (1 + nu));
  lmbda ← pydiv (elasticity * nu) ((1 + nu) * (1 - 2 * nu));
  Ok (mu, lmbda).

(** The same lines on binary64 numbers: the arithmetic of the program,
    with Python's error on a zero divisor. *)
Module Binary64.
Import PrimFloat.
Local Open Scope float_scope.

Definition pydiv (x y : float) : result float :=
  if PrimFloat.eqb y 0 then Err ZeroDivisionError else Ok (x / y).

Definition lame_parameters (elasticity nu : float) : result (float * float) :=
  mu ← pydiv elasticity (2 * (1 + nu));
  lmbda ← pydiv (elasticity * nu) ((1 + nu) * (1 - 2 * nu));
  Ok (mu, lmbda).

(** Sample numbers: a large and the smallest positive modulus, two ratios
    inside the admissible interval, and the two special values they lead
    to. *)
#[warnings="-inexact-float"]
Definition large_modulus : float := 1e308.
Definition least_modulus : float := 0x1p-1074.
#[warnings="-inexact-float"]
Definition ratio_045 : float := 0.45.
#[warnings="-inexact-float"]
Definition ratio_04 : float := 0.4.
Definition inf : float := infinity.
Definition zero : float := 0.

End Binary64.

(** ** Meshes, function spaces and fields *)

Definition point : Type := list R.

Record Mesh : Type := mkMesh {
  geometric_dimension : nat
}.

(** Facets are numbered; a [SubDomain] selects facets, a [FacetFunction]
    stores one mark per facet. *)
Definition SubDomain : Type := nat -> bool.
Definition FacetFunction : Type := nat -> nat.

(** [FacetFunction('size_t', mesh)] followed by [set_all(0)]. *)
Definition set_all (c : nat) : FacetFunction := fun _ => c.

(** [sub.mark(ff, id)]: every facet inside [sub] receives [id]; the other
    facets keep their mark. *)
Definition mark (sub : SubDomain) (ff : FacetFunction) (id : nat) : FacetFunction :=
  fun facet => if sub facet then id else ff facet.

Inductive FunSpace : Type :=
| FunctionSpace (m : Mesh) (family : string) (degree : nat)
| VectorFunctionSpace (m : Mesh) (family : string) (degree : nat)
| SubSpace (V : FunSpace) (i : nat).

Fixpoint space_mesh (V : FunSpace) : Mesh :=
  match V with
  | FunctionSpace m _ _ => m
  | VectorFunctionSpace m _ _ => m
  | SubSpace V' _ => space_mesh V'
  end.

Fixpoint value_shape (V : FunSpace) : list nat :=
  match V with
  | FunctionSpace _ _ _ => []
  | VectorFunctionSpace m _ _ => [geometric_dimension m]
  | SubSpace V' _ => tl (value_shape V')
  end.

(** A dolfin [Function]: its space, its value and its gradient at each
    point. *)
Record Function : Type := mkFunction {
  fn_space : FunSpace;
  value_at : point -> nat -> R;
  gradient_at : point -> nat -> nat -> R
}.

(** ** UFL expressions, as the program builds them *)

Inductive ufl : Type :=
| FloatValue (r : R)
| ConstantS (r : R)
| ConstantV (c : list R)
| Expression (code : string)
| Coefficient (f : Function)
| Argument (V : FunSpace) (number : nat)
| FacetNormal (m : Mesh)
| Identity (n : nat)
| Grad (e : ufl)
| Sym (e : ufl)
| Tr (e : ufl)
| Sqrt (e : ufl)
| Add (a b : ufl)
| Sub (a b : ufl)
| Mul (a b : ufl)
| Div (a b : ufl)
| Inner (a b : ufl)
| Dot (a b : ufl).

Definition TestFunction (V : FunSpace) : ufl := Argument V 0.
Definition TrialFunction (V : FunSpace) : ufl := Argument V 1.

(** [len(u)] where line 76 reaches it, after [grad(u)]: the first extent of
    a vector-valued field.  UFL refuses the gradient of an object that
    lives on no mesh (a number, a [Constant]), and of a scalar field the
    symmetric part; either refusal is the error here. *)
Definition ufl_len (u : ufl) : result nat :=
  match u with
  | Coefficient f =>
      match value_shape (fn_space f) with
      | n :: _ => Ok n
      | [] => Err EngineError
      end
  | Argument V _ =>
      match value_shape V with
      | n :: _ => Ok n
      | [] => Err EngineError
      end
  | _ => Err EngineError
  end.

Inductive Measure : Type :=
| dx
| ds (subdomain_data : FacetFunction) (subdomain_id : nat).

Record Integral : Type := mkIntegral {
  integrand : ufl;
  measure : Measure
}.

(** A [Form] is a sum of integrals; [e * measure] is a one-integral
    form. *)
Definition Form : Type := list Integral.

Definition times (e : ufl) (m : Measure) : Form := [mkIntegral e m].

(** A [Form] keeps its integrals grouped: those over the domain first, then
    those over the boundary by increasing subdomain id; integrals of one
    group stay in the order they were added. *)
Definition integral_rank (I : Integral) : nat :=
  match measure I with
  | dx => 0
  | ds _ id => S id
  end.

Fixpoint insert_integral (I : Integral) (F : Form) : Form :=
  match F with
  | [] => [I]
  | J :: rest =>
      if Nat.leb (integral_rank J) (integral_rank I)
      then J :: insert_integral I rest
      else I :: J :: rest
  end.

Definition sorted_integrals (l : list Integral) : Form :=
  fold_left (fun F I => insert_integral I F) l [].

(** [F + G] on forms. *)
Definition form_add (F G : Form) : Form := sorted_integrals (F ++ G).

Record DirichletBC : Type := mkDirichletBC {
  dbc_space : FunSpace;
  dbc_value : ufl;
  dbc_markers : FacetFunction;
  dbc_marker : nat
}.

(** ** Shapes, as UFL checks them when a node is built *)

(** The mesh an expression lives on, if any. *)
Fixpoint ufl_domain (e : ufl) : option Mesh :=
  match e with
  | Coefficient f => Some (space_mesh (fn_space f))
  | Argument V _ => Some (space_mesh V)
  | FacetNormal m => Some m
  | Grad a | Sym a | Tr a | Sqrt a => ufl_domain a
  | Add a b | Sub a b | Mul a b | Div a b | Inner a b | Dot a b =>
      match ufl_domain a with
      | Some m => Some m
      | None => ufl_domain b
      end
  | FloatValue _ | ConstantS _ | ConstantV _ | Expression _ | Identity _ => None
  end.

Fixpoint same_shape (s t : list nat) : bool :=
  match s, t with
  | [], [] => true
  | n :: s', m :: t' => Nat.eqb n m && same_shape s' t'
  | _, _ => false
  end.

(** [ufl_shape]: the value shape of an expression, [None] when UFL refuses
    to build it.  An [Expression] given by one code string is scalar. *)
Fixpoint ufl_shape (e : ufl) : option (list nat) :=
  match e with
  | FloatValue _ | ConstantS _ | Expression _ => Some []
  | ConstantV c => Some [length c]
  | Coefficient f => Some (value_shape (fn_space f))
  | Argument V _ => Some (value_shape V)
  | FacetNormal m => Some [geometric_dimension m]
  | Identity n => Some [n; n]
  | Grad a =>
      match ufl_shape a, ufl_domain a with
      | Some s, Some m => Some (s ++ [geometric_dimension m])
      | _, _ => None
      end
  | Sym a =>
      match ufl_shape a with
      | Some [n; m] => if Nat.eqb n m then Some [n; m] else None
      | _ => None
      end
  | Tr a =>
      match ufl_shape a with
      | Some [_; _] => Some []
      | _ => None
      end
  | Sqrt a =>
      match ufl_shape a with
      | Some [] => Some []
      | _ => None
      end
  | Add a b | Sub a b =>
      match ufl_shape a, ufl_shape b with
      | Some s, Some t => if same_shape s t then Some s else None
      | _, _ => None
      end
  | Mul a b =>
      match ufl_shape a, ufl_shape b with
      | Some [], Some t => Some t
      | Some s, Some [] => Some s
      | Some [n; m], Some (k :: t) =>
          match t with
          | [] | [_] => if Nat.eqb m k then Some (n :: t) else None
          | _ => None
          end
      | _, _ => None
      end
  | Div a b =>
      match ufl_shape a, ufl_shape b with
      | Some s, Some [] => Some s
      | _, _ => None
      end
  | Inner a b =>
      match ufl_shape a, ufl_shape b with
      | Some s, Some t => if same_shape s t then Some [] else None
      | _, _ => None
      end
  | Dot a b =>
      match ufl_shape a, ufl_shape b with
      | Some [], Some [] => Some []
      | Some (n :: s), Some (k :: t) =>
          if Nat.eqb (List.last (n :: s) 0%nat) k then Some (List.removelast (n :: s) ++ t) else None
      | _, _ => None
      end
  end.

(** [dot(a, b)]: the product of two scalars, the contraction of two
    tensors whose adjacent extents agree; a scalar and a tensor are
    refused. *)
Definition dot (a b : ufl) : result ufl :=
  match ufl_shape a, ufl_shape b with
  | Some [], Some [] => Ok (Mul a b)
  | Some (n :: s), Some (k :: _) =>
      if Nat.eqb (List.last (n :: s) 0%nat) k then Ok (Dot a b) else Err EngineError
  | _, _ => Err EngineError
  end.

(** [e * measure]: only a scalar is integrated. *)
Definition integrate (e : ufl) (m : Measure) : result Form :=
  match ufl_shape e with
  | Some [] => Ok (times e m)
  | _ => Err EngineError
  end.

(** ** Pointwise meaning of UFL expressions *)

Inductive val : Type :=
| Scalar (r : R)
| Vector (n : nat) (f : nat -> R)
| Matrix (n m : nat) (f : nat -> nat -> R).

Fixpoint rsum (n : nat) (f : nat -> R) : R :=
  match n with
  | O => 0
  | S k => rsum k f + f k
  end.

Definition kron (i j : nat) : R := if Nat.eqb i j then 1 else 0.

Definition val_add (a b : val) : option val :=
  match a, b with
  | Scalar x, Scalar y => Some (Scalar (x + y))
  | Vector n f, Vector n' g =>
      if Nat.eqb n n' then Some (Vector n (fun i => f i + g i)) else None
  | Matrix n m f, Matrix n' m' g =>
      if Nat.eqb n n' && Nat.eqb m m'
      then Some (Matrix n m (fun i j => f i j + g i j)) else None
  | _, _ => None
  end.

Definition val_scale (c : R) (a : val) : val :=
  match a with
  | Scalar x => Scalar (c * x)
  | Vector n f => Vector n (fun i => c * f i)
  | Matrix n m f => Matrix n m (fun i j => c * f i j)
  end.

Definition val_mul (a b : val) : option val :=
  match a, b with
  | Scalar x, _ => Some (val_scale x b)
  | _, Scalar y => Some (val_scale y a)
  | _, _ => None
  end.

Definition val_inner (a b : val) : option val :=
  match a, b with
  | Scalar x, Scalar y => Some (Scalar (x * y))
  | Vector n f, Vector n' g =>
      if Nat.eqb n n' then Some (Scalar (rsum n (fun i => f i * g i))) else None
  | Matrix n m f, Matrix n' m' g =>
      if Nat.eqb n n' && Nat.eqb m m'
      then Some (Scalar (rsum n (fun i => rsum m (fun j => f i j * g i j))))
      else None
  | _, _ => None
  end.

Definition val_dot (a b : val) : option val :=
  match a, b with
  | Scalar x, Scalar y => Some (Scalar (x * y))
  | Vector n f, Vector n' g =>
      if Nat.eqb n n' then Some (Scalar (rsum n (fun i => f i * g i))) else None
  | _, _ => None
  end.

Fixpoint eval (x : point) (e : ufl) : option val :=
  match e with
  | FloatValue r => Some (Scalar r)
  | ConstantS r => Some (Scalar r)
  | ConstantV c => Some (Vector (length c) (fun i => nth i c 0))
  | Expression _ => None
  | Coefficient f =>
      match value_shape (fn_space f) with
      | [n] => Some (Vector n (value_at f x))
      | _ => None
      end
  | Argument _ _ => None
  | FacetNormal _ => None
  | Identity n => Some (Matrix n n kron)
  | Grad a =>
      match a with
      | Coefficient f =>
          match value_shape (fn_space f) with
          | [n] => Some (Matrix n (geometric_dimension (space_mesh (fn_space f)))
                           (gradient_at f x))
          | _ => None
          end
      | _ => None
      end
  | Sym a =>
      match eval x a with
      | Some (Matrix n m f) =>
          if Nat.eqb n m then Some (Matrix n n (fun i j => (f i j + f j i) / 2)) else None
      | _ => None
      end
  | Tr a =>
      match eval x a with
      | Some (Matrix n m f) =>
          if Nat.eqb n m then Some (Scalar (rsum n (fun i => f i i))) else None
      | _ => None
      end
  | Sqrt a =>
      match eval x a with
      | Some (Scalar r) => if Rle_dec 0 r then Some (Scalar (sqrt r)) else None
      | _ => None
      end
  | Add a b =>
      match eval x a, eval x b with
      | Some va, Some vb => val_add va vb
      | _, _ => None
      end
  | Sub a b =>
      match eval x a, eval x b with
      | Some va, Some vb => val_add va (val_scale (-1) vb)
      | _, _ => None
      end
  | Mul a b =>
      match eval x a, eval x b with
      | Some va, Some vb => val_mul va vb
      | _, _ => None
      end
  | Div a b =>
      match eval x a, eval x b with
      | Some va, Some (Scalar y) =>
          if Req_dec_T y 0 then None else Some (val_scale (/ y) va)
      | _, _ => None
      end
  | Inner a b =>
      match eval x a, eval x b with
      | Some va, Some vb => val_inner va vb
      | _, _ => None
      end
  | Dot a b =>
      match eval x a, eval x b with
      | Some va, Some vb => val_dot va vb
      | _, _ => None
      end
  end.

(** ** Python values held in settings and attributes *)

#[warnings="-register-all"]
Inductive pyval : Type :=
| PyNone
| PyNum (r : R)
| PyExpr (e : ufl)            (* a dolfin [Expression] or [Constant] *)
| PyList (l : list pyval)
| PyForm (F : Form)
| PyDirichletBC (b : DirichletBC)
| PyObject (name : string).   (* a module, class or function *)

(** Truth value of an object in [if]: [None], zero and the empty list are
    false, every other object is true. *)
Definition truthy (v : pyval) : bool :=
  match v with
  | PyNone => false
  | PyNum r => if Req_dec_T r 0 then false else true
  | PyList l => match l with [] => false | _ :: _ => true end
  | PyExpr _ | PyForm _ | PyDirichletBC _ | PyObject _ => true
  end.

(** [isinstance(v, (Expression, Constant))]. *)
Definition is_Expression_or_Constant (v : pyval) : option ufl :=
  match v with
  | PyExpr e => Some e
  | _ => None
  end.

(** [for x in v]: only lists are iterated. *)
Definition py_iter (v : pyval) : result (list pyval) :=
  match v with
  | PyList l => Ok l
  | _ => Err TypeError
  end.

(** [Constant(v)] for a number. *)
Definition Constant (v : pyval) : result ufl :=
  match v with
  | PyNum r => Ok (ConstantS r)
  | _ => Err TypeError
  end.

(** Promotion of a Python value to a UFL operand. *)
Definition as_ufl (v : pyval) : result ufl :=
  match v with
  | PyNum r => Ok (FloatValue r)
  | PyExpr e => Ok e
  | _ => Err EngineError
  end.

(** [value / area] with [area] a Python float: float division for a number,
    a UFL quotient for an expression (UFL refuses a zero divisor too). *)
Definition div_by_float (v : pyval) (area : R) : result ufl :=
  match v with
  | PyNum f => g ← pydiv f area; Ok (FloatValue g)
  | PyExpr e => if Req_dec_T area 0 then Err EngineError else Ok (Div e (FloatValue area))
  | _ => Err TypeError
  end.

(** ** Boundary conditions and the solver object *)

(** One entry of [boundary_conditions]; [direction] is [None] when the key
    is absent. *)
Record BoundaryCondition : Type := mkBC {
  boundary : SubDomain;
  boundary_id : nat;
  bc_type : string;
  value : pyval;
  direction : option pyval
}.

(** The attributes of [self] the module reads.  [thermal_stress] and
    [temperature_distribution] are [None] while the attribute has not been
    assigned.  The dictionaries [material] and [reference_values] are read
    at fixed keys only and are kept as fields: [reference_temperature] is
    [reference_values['temperature']]. *)
Record Solver : Type := mkSolver {
  dimension : nat;
  material : Material;
  body_source : pyval;
  boundary_conditions : list (string * BoundaryCondition);
  reference_temperature : R;
  mesh : Mesh;
  function_space : FunSpace;
  thermal_stress : option bool;
  temperature_distribution : option pyval;
  solving_modal : bool
}.

Definition set_body_source (self : Solver) (b : pyval) : Solver :=
  mkSolver (dimension self) (material self) b (boundary_conditions self)
    (reference_temperature self) (mesh self) (function_space self)
    (thermal_stress self) (temperature_distribution self) (solving_modal self).

Definition set_thermal (self : Solver) (flag : bool) (t : pyval) : Solver :=
  mkSolver (dimension self) (material self) (body_source self) (boundary_conditions self)
    (reference_temperature self) (mesh self) (function_space self)
    (Some flag) (Some t) (solving_modal self).

Definition set_solving_modal (self : Solver) (b : bool) : Solver :=
  mkSolver (dimension self) (material self) (body_source self) (boundary_conditions self)
    (reference_temperature self) (mesh self) (function_space self)
    (thermal_stress self) (temperature_distribution self) b.

(** [self.name] for an attribute that may be unassigned. *)
Definition getattr {A} (name : string) (slot : option A) : result A :=
  match slot with
  | Some a => Ok a
  | None => Err (AttributeError name)
  end.

(** ** Collaborators *)

(** What the module uses of dolfin and of the Python name space. *)
Class Engine : Type := {
  (** [assemble] of a form without arguments: a number. *)
  assemble : Form -> R;
  (** [project(e, V)]: a scalar field. *)
  project : ufl -> FunSpace -> point -> R;
  (** [assemble_system(lhs(F), rhs(F), bcs)], the SLEPc solve and
      [get_eigenpair(0)], stored in a [Function] over the given space. *)
  first_eigenvector : Form -> list DirichletBC -> FunSpace -> result Function;
  (** The names bound by [from dolfin import *] and the builtins. *)
  dolfin_exports : string -> option pyval;
  builtins : string -> option pyval
}.

(** What the module uses of its base class [SolverBase]. *)
Class Base : Type := {
  SolverBase_init : gmap string pyval -> Solver;
  translate_value : pyval -> ufl;
  solve_transient : Solver -> result Function
}.

Section Solver.
Context {engine : Engine} {base : Base}.

(** [__init__], lines 25-42. *)
Definition __init__ (case_settings : gmap string pyval) : Solver :=
  let self := SolverBase_init case_settings in
  let self :=
    if truthy (body_source self)
    then set_body_source self (PyExpr (translate_value (body_source self)))
    else if Nat.eqb (dimension self) 3
         then set_body_source self (PyExpr (ConstantV [0; 0; 0]))
         else set_body_source self (PyExpr (ConstantV [0; 0])) in
  let self :=
    match case_settings !! "temperature_distribution" with
    | Some t => set_thermal self true t
    | None => self
    end in
  set_solving_modal self false.

(** ** Stress *)

(** [sigma], lines 71-76. *)
Definition sigma (self : Solver) (u : ufl) : result ufl :=
  '(mu, lmbda) ← lame_parameters (material self);
  n ← ufl_len u;
  Ok (Add (Mul (FloatValue (2 * mu)) (Sym (Grad u)))
          (Mul (Mul (FloatValue lmbda) (Tr (Sym (Grad u)))) (Identity n))).

(** [von_Mises], lines 86-91. *)
Definition von_Mises_expr (self : Solver) (u : ufl) : result ufl :=
  sg ← sigma self u;
  sg' ← sigma self u;
  let s := Sub sg (Mul (Mul (FloatValue (1 / 3)) (Tr sg')) (Identity (dimension self))) in
  Ok (Sqrt (Mul (FloatValue (3 / 2)) (Inner s s))).

Definition von_Mises (self : Solver) (u : ufl) : result (point -> R) :=
  von_Mises ← von_Mises_expr self u;
  let V := FunctionSpace (mesh self) "P" 1 in
  Ok (project von_Mises V).

(** ** Weak-form assembly *)

(** The first loop of [update_boundary_conditions], lines 116-120. *)
Definition mark_boundaries (items : list (string * BoundaryCondition)) : FacetFunction :=
  fold_left (fun ff item => mark (boundary (snd item)) ff (boundary_id (snd item)))
    items (set_all 0).

(** The per-axis loop, lines 135-140. *)
Fixpoint axis_loop (V : FunSpace) (boundary_facets : FacetFunction) (i : nat)
    (axis_i : nat) (values : list pyval) (bcs : list DirichletBC)
  : result (list DirichletBC) :=
  match values with
  | [] => Ok bcs
  | disp :: rest =>
      if truthy disp then
        c ← Constant disp;
        axis_loop V boundary_facets i (S axis_i) rest
          (bcs ++ [mkDirichletBC (SubSpace V axis_i) c boundary_facets i])
      else axis_loop V boundary_facets i (S axis_i) rest bcs
  end.

Definition unsupported (t : string) : exn :=
  SolverError (String.append "thermal boundary type`" (String.append t "` is not supported")).

(** [direction_vector], lines 147-150 and 153-156. *)
Definition direction_of (bc : BoundaryCondition) (mesh_normal : ufl) : pyval :=
  match direction bc with
  | Some d => if truthy d then d else PyExpr mesh_normal
  | None => PyExpr mesh_normal
  end.

(** The body of the second loop, lines 129-162, on the pair
    [(integrals_F, bcs)]. *)
Definition bc_step (V : FunSpace) (v : ufl) (boundary_facets : FacetFunction)
    (mesh_normal : ufl) (st : list Form * list DirichletBC) (bc : BoundaryCondition)
  : result (list Form * list DirichletBC) :=
  let '(integrals_F, bcs) := st in
  let i := boundary_id bc in
  if String.eqb (bc_type bc) "Dirichlet" || String.eqb (bc_type bc) "displacement" then
    match is_Expression_or_Constant (value bc) with
    | Some e =>
        let dbc := mkDirichletBC V e boundary_facets i in
        Ok (integrals_F, bcs ++ [dbc])
    | None =>
        values ← py_iter (value bc);
        bcs' ← axis_loop V boundary_facets i 0 values bcs;
        Ok (integrals_F, bcs')
    end
  else if String.eqb (bc_type bc) "force" then
    let bc_force := value bc in
    let bc_area := assemble (times (ConstantS 1) (ds boundary_facets (boundary_id bc))) in
    g ← div_by_float bc_force bc_area;
    let direction_vector := direction_of bc mesh_normal in
    gv ← dot g v;
    term ← integrate gv (ds boundary_facets i);
    Ok (integrals_F ++ [term], bcs)
  else if String.eqb (bc_type bc) "stress" || String.eqb (bc_type bc) "Neumann" then
    let direction_vector := direction_of bc mesh_normal in
    g ← as_ufl (value bc);
    gv ← dot g v;
    term ← integrate gv (ds boundary_facets i);
    Ok (integrals_F ++ [term], bcs)
  else if String.eqb (bc_type bc) "symmetry" then
    Err (unsupported (bc_type bc))
  else
    Err (unsupported (bc_type bc)).

(** The second loop, lines 128-162. *)
Fixpoint bc_loop (V : FunSpace) (v : ufl) (boundary_facets : FacetFunction)
    (mesh_normal : ufl) (items : list (string * BoundaryCondition))
    (st : list Form * list DirichletBC) : result (list Form * list DirichletBC) :=
  match items with
  | [] => Ok st
  | (name, bc) :: rest =>
      st' ← bc_step V v boundary_facets mesh_normal st bc;
      bc_loop V v boundary_facets mesh_normal rest st'
  end.

(** [update_boundary_conditions], lines 93-170.  The [plot] call of the
    first time step draws and leaves the result untouched. *)
Definition update_boundary_conditions (self : Solver) (time_iter_ : nat)
    (u_0 u_1 : option Function) : result (Form * list DirichletBC) :=
  let V := function_space self in
  let u := TrialFunction V in
  let v := TestFunction V in
  let elasticity := elastic_modulus (material self) in
  '(mu, lmbda) ← lame_parameters (material self);
  sg ← sigma self u;
  let a := times (Inner sg (Grad v)) dx in
  let integrals_F := [] in
  integrals_F ←
    (if truthy (body_source self)
     then b ← as_ufl (body_source self); Ok (integrals_F ++ [times (Inner b v) dx])
     else Ok integrals_F);
  td ← getattr "temperature_distribution" (temperature_distribution self);
  let integrals_F :=
    if truthy td then
      let T := translate_value td in
      let thermal_stress :=
        times (Inner (Mul (FloatValue elasticity)
                        (Grad (Sub T (ConstantS (reference_temperature self))))) v) dx in
      integrals_F ++ [thermal_stress]
    else integrals_F in
  let boundary_facets := mark_boundaries (boundary_conditions self) in
  let bcs := [] in
  let mesh_normal := FacetNormal (mesh self) in
  '(integrals_F, bcs) ←
    bc_loop V v boundary_facets mesh_normal (boundary_conditions self) (integrals_F, bcs);
  let F := fold_left form_add integrals_F a in
  Ok (F, bcs).

(** ** Solving *)

(** Module-level names bound before and after [from dolfin import *]. *)
Definition early_module_names : list string :=
  ["print_function"; "division"; "math"; "collections"; "numbers"; "np"].
Definition late_module_names : list string :=
  ["Box"; "SolverBase"; "SolverError"; "LinearElasticitySolver"].

(** Lookup of a name that is not local to the function. *)
Definition load_global (name : string) : result pyval :=
  if existsb (String.eqb name) late_module_names then Ok (PyObject name)
  else match dolfin_exports name with
       | Some o => Ok o
       | None =>
           if existsb (String.eqb name) early_module_names then Ok (PyObject name)
           else match builtins name with
                | Some o => Ok o
                | None => Err (NameError name)
                end
       end.

Definition as_Form (o : pyval) : result Form :=
  match o with
  | PyForm F => Ok F
  | _ => Err EngineError
  end.

Definition as_DirichletBC (o : pyval) : result DirichletBC :=
  match o with
  | PyDirichletBC b => Ok b
  | _ => Err EngineError
  end.

Fixpoint collect {A B} (f : A -> result B) (l : list A) : result (list B) :=
  match l with
  | [] => Ok []
  | a :: rest => b ← f a; bs ← collect f rest; Ok (b :: bs)
  end.

Definition as_bcs (o : pyval) : result (list DirichletBC) :=
  l ← py_iter o; collect as_DirichletBC l.

(** [solve_modal], lines 180-207. *)
Definition solve_modal (self : Solver) (F : Form) (bcs : list DirichletBC) : result Function :=
  first_eigenvector F bcs (function_space self).

(** [solve], lines 172-178.  Its locals are [self] and [u]; [F] and [bcs]
    are looked up outside the function. *)
Definition solve (self : Solver) : result Function :=
  u ← solve_transient self;
  if solving_modal self then
    F ← load_global "F";
    bcs ← load_global "bcs";
    F' ← as_Form F;
    bcs' ← as_bcs bcs;
    _ ← solve_modal self F' bcs';
    Ok u
  else Ok u.

End Solver.

(** ** Vocabulary of the statements *)


(** The statements before the loops run through: the two divisions are
    defined, the trial function is vector valued, [body_source] is a dolfin
    object and [temperature_distribution] has been assigned. *)
Definition loads_ready (self : Solver) : Prop :=
  poisson_ratio (material self) <> -1 /\
  poisson_ratio (material self) <> 1 / 2 /\
  (exists n, ufl_len (TrialFunction (function_space self)) = Ok n) /\
  (exists b, body_source self = PyExpr b) /\
  (exists td, temperature_distribution self = Some td).

(** A displacement entry given by a dolfin expression. *)
Definition dirichlet_entry (spec : string * SubDomain * nat * ufl)
  : string * BoundaryCondition :=
  let '(name, b, id, e) := spec in (name, mkBC b id "Dirichlet" (PyExpr e) None).

Definition dirichlet_constraint (V : FunSpace) (boundary_facets : FacetFunction)
    (spec : string * SubDomain * nat * ufl) : DirichletBC :=
  let '(_, _, id, e) := spec in mkDirichletBC V e boundary_facets id.

(** * The unit-cube scenarios *)

Module Cube.

Definition unit_cube : Mesh := mkMesh 3.
Definition steel : Material := mkMaterial 210000000000 (3 / 10).
Definition V3 : FunSpace := VectorFunctionSpace unit_cube "CG" 1.

(** Facet [0] is the fixed face, facet [1] the loaded one. *)
Definition bottom_face : SubDomain := fun facet => Nat.eqb facet 0.
Definition top_face : SubDomain := fun facet => Nat.eqb facet 1.
Definition everywhere : SubDomain := fun _ => true.

Definition zero_field : Function :=
  mkFunction V3 (fun _ _ => 0) (fun _ _ _ => 0).

(** [u(x) = 2 x]: a pure dilation. *)
Definition dilation : Function :=
  mkFunction V3 (fun x i => 2 * nth i x 0) (fun _ i j => 2 * kron i j).

(** An engine whose boundary integral of [1] is [area] and whose
    projection samples the integrand. *)
Definition engine_with_area (area : R) : Engine := {|
  assemble := fun _ => area;
  project := fun e _ x => match eval x e with Some (Scalar r) => r | _ => 0 end;
  first_eigenvector := fun _ _ V => Ok (mkFunction V (fun _ _ => 0) (fun _ _ _ => 0));
  dolfin_exports := fun _ => None;
  builtins := fun _ => None
|}.

Definition base_from (s : Solver) : Base := {|
  SolverBase_init := fun _ => s;
  translate_value := fun v =>
    match v with
    | PyExpr e => e
    | PyNum r => ConstantS r
    | _ => ConstantS 0
    end;
  solve_transient := fun _ => Ok zero_field
|}.

Definition solver_with (items : list (string * BoundaryCondition))
    (thermal : option pyval) (modal : bool) : Solver :=
  mkSolver 3 steel (PyExpr (ConstantV [0; 0; 0])) items 293 unit_cube V3
    None thermal modal.

Definition fixed_face : BoundaryCondition :=
  mkBC bottom_face 1 "Dirichlet" (PyExpr (ConstantV [0; 0; 0])) None.
Definition pushed_face : BoundaryCondition :=
  mkBC top_face 2 "force" (PyNum 1000) None.
Definition mirror_face : BoundaryCondition :=
  mkBC top_face 2 "symmetry" PyNone None.
(** The same load as a vector: [Constant((0, 0, -1000))]. *)
Definition pressed_face : BoundaryCondition :=
  mkBC top_face 2 "force" (PyExpr (ConstantV [0; 0; -1000])) None.

Definition clamped_twice : list (string * SubDomain * nat * ufl) :=
  [("fixed", bottom_face, 1%nat, ConstantV [0; 0; 0]);
   ("moved", top_face, 1%nat, ConstantV [0; 0; 1])].

End Cube.

Import Cube.

(** * The remaining functions of the module *)

Section Energy.
Context {engine : Engine}.

(** The calls, the power and the sum of line 84, once [tr], [eps] and [v]
    have been found. *)
Variable energy_calls : R -> R -> pyval -> pyval -> pyval -> result ufl.

(** [energy], lines 79-84.  The argument [u] is not used; [tr], [eps] and
    [v] are not local to the function, and Python looks them up in this
    order. *)
Definition energy (self : Solver) (u : ufl) : result ufl :=
  '(mu, lmbda) ← lame_parameters (material self);
  tr_ ← load_global "tr";
  eps_ ← load_global "eps";
  v_ ← load_global "v";
  energy_calls mu lmbda tr_ eps_ v_.

End Energy.

Section InternalField.

(** [interpolate(v0, V)] of dolfin. *)
Variable interpolate : ufl -> FunSpace -> result Function.

(** [get_internal_field], lines 59-68, on the attribute [initial_values];
    it returns the field together with the attribute as the call leaves
    it.  [d0] is assigned under the [isinstance] test only: otherwise
    [return d0] raises [UnboundLocalError], which is a [NameError]. *)
Definition get_internal_field (self : Solver) (initial_values : pyval)
  : result (Function * pyval) :=
  let initial_values :=
    if negb (truthy initial_values) then
      if Nat.eqb (dimension self) 3
      then PyExpr (ConstantV [0; 0; 0])
      else PyExpr (ConstantV [0; 0])
    else initial_values in
  let v0 := initial_values in
  match is_Expression_or_Constant v0 with
  | Some e => d0 ← interpolate e (function_space self); Ok (d0, initial_values)
  | None => Err (NameError "d0")
  end.

End InternalField.

Section FunctionSpaceSetup.

(** [VectorFunctionSpace(mesh, "CG", 1, constrained_domain=periodic_boundary)]. *)
Variable periodic_space : Mesh -> SubDomain -> FunSpace.

Definition set_mesh_and_space (self : Solver) (m : Mesh) (V : FunSpace) : Solver :=
  mkSolver (dimension self) (material self) (body_source self) (boundary_conditions self)
    (reference_temperature self) m V
    (thermal_stress self) (temperature_distribution self) (solving_modal self).

(** [set_function_space], lines 44-57.  The argument is a mesh or a function
    space.  For a function space the constructor of the [try] block raises
    and the [except] block stores the space and its mesh.  The result is
    [self] with the attribute [is_mixed_function_space]. *)
Definition set_function_space (self : Solver) (mesh_or_function_space : Mesh + FunSpace)
    (periodic_boundary : option SubDomain) : Solver * bool :=
  let self :=
    match mesh_or_function_space with
    | inl m =>
        match periodic_boundary with
        | Some pb => set_mesh_and_space self m (periodic_space m pb)
        | None => set_mesh_and_space self m (VectorFunctionSpace m "CG" 1)
        end
    | inr V => set_mesh_and_space self (space_mesh V) V
    end in
  (self, false).

End FunctionSpaceSetup.

(** ** Vocabulary of the further statements *)

(** The deviator [s] of [von_Mises] and the radicand [3/2*inner(s, s)], for
    a stress of size [d]. *)
Definition deviator (d : nat) (stress : nat -> nat -> R) (i j : nat) : R :=
  stress i j + -1 * (1 / 3 * rsum d (fun k => stress k k) * kron i j).

Definition von_Mises_square (d : nat) (stress : nat -> nat -> R) : R :=
  3 / 2 * rsum d (fun i => rsum d (fun j => deviator d stress i j * deviator d stress i j)).

(** The integrals of [update_boundary_conditions] over the domain. *)
Definition stiffness (self : Solver) (sg : ufl) : Form :=
  times (Inner sg (Grad (TestFunction (function_space self)))) dx.

Definition body_integrals (self : Solver) : result (list Form) :=
  if truthy (body_source self)
  then b ← as_ufl (body_source self);
       Ok [times (Inner b (TestFunction (function_space self))) dx]
  else Ok [].

Definition thermal_integrals {base : Base} (self : Solver) (td : pyval) : list Form :=
  if truthy td then
    [times (Inner (Mul (FloatValue (elastic_modulus (material self)))
                     (Grad (Sub (translate_value td)
                              (ConstantS (reference_temperature self)))))
              (TestFunction (function_space self))) dx]
  else [].

(** What an accumulated pair looks like after more has been appended. *)
Definition appended (st : list Form * list DirichletBC)
    (r : result (list Form * list DirichletBC)) : result (list Form * list DirichletBC) :=
  '(terms, constraints) ← r; Ok (fst st ++ terms, snd st ++ constraints).

(** The constraints of a per-axis list, from axis [axis_i] on: one for each
    non-zero number. *)
Fixpoint axis_constraints (V : FunSpace) (boundary_facets : FacetFunction) (i : nat)
    (axis_i : nat) (values : list (option R)) : list DirichletBC :=
  match values with
  | [] => []
  | Some r :: rest =>
      if Req_dec_T r 0
      then axis_constraints V boundary_facets i (S axis_i) rest
      else mkDirichletBC (SubSpace V axis_i) (ConstantS r) boundary_facets i
             :: axis_constraints V boundary_facets i (S axis_i) rest
  | None :: rest => axis_constraints V boundary_facets i (S axis_i) rest
  end.

Definition axis_value (o : option R) : pyval :=
  match o with
  | Some r => PyNum r
  | None => PyNone
  end.

(** A constraint of the entry [bc] over the marks [boundary_facets]. *)
Definition constraint_of (V : FunSpace) (boundary_facets : FacetFunction)
    (bc : BoundaryCondition) (c : DirichletBC) : Prop :=
  dbc_markers c = boundary_facets /\
  dbc_marker c = boundary_id bc /\
  (dbc_space c = V \/ exists k, dbc_space c = SubSpace V k) /\
  (bc_type bc = "Dirichlet" \/ bc_type bc = "displacement").

(** A boundary integral of the entry [bc] over the marks [boundary_facets]. *)
Definition integral_of (boundary_facets : FacetFunction) (bc : BoundaryCondition)
    (I : Integral) : Prop :=
  measure I = ds boundary_facets (boundary_id bc) /\
  (bc_type bc = "force" \/ bc_type bc = "stress" \/ bc_type bc = "Neumann").

(** An entry with another [direction], and [self] with another list. *)
Definition with_direction (d : option pyval) (bc : BoundaryCondition) : BoundaryCondition :=
  mkBC (boundary bc) (boundary_id bc) (bc_type bc) (value bc) d.

Definition set_boundary_conditions (self : Solver)
    (items : list (string * BoundaryCondition)) : Solver :=
  mkSolver (dimension self) (material self) (body_source self) items
    (reference_temperature self) (mesh self) (function_space self)
    (thermal_stress self) (temperature_distribution self) (solving_modal self).

Definition redirect (dirs : string -> option pyval)
    (items : list (string * BoundaryCondition)) : list (string * BoundaryCondition) :=
  map (fun item => (fst item, with_direction (dirs (fst item)) (snd item))) items.

(** ** Further scenarios *)

Module Plate.

Definition steel_mu : R := 210000000000 / (2 * (1 + 3 / 10)).
Definition steel_lmbda : R := 210000000000 * (3 / 10) / ((1 + 3 / 10) * (1 - 2 * (3 / 10))).

(** An incompressible material: [nu = 1/2]. *)
Definition rubber : Material := mkMaterial 1000000 (1 / 2).
Definition rubber_solver : Solver :=
  mkSolver 3 rubber (PyExpr (ConstantV [0; 0; 0])) [] 293 unit_cube V3 None None false.

(** The unit square and the dilation [u(x) = 2 x] on it. *)
Definition unit_square : Mesh := mkMesh 2.
Definition V2 : FunSpace := VectorFunctionSpace unit_square "CG" 1.
Definition dilation2 : Function :=
  mkFunction V2 (fun x i => 2 * nth i x 0) (fun _ i j => 2 * kron i j).
Definition plate_solver : Solver :=
  mkSolver 2 steel (PyExpr (ConstantV [0; 0])) [] 293 unit_square V2 None None false.

(** The strain of both dilations. *)
Definition dilation_strain (i j : nat) : R := (2 * kron i j + 2 * kron j i) / 2.

(** The stress tree of the dilation on the cube. *)
Definition cube_stress_tree : ufl :=
  Add (Mul (FloatValue (2 * steel_mu)) (Sym (Grad (Coefficient dilation))))
      (Mul (Mul (FloatValue steel_lmbda) (Tr (Sym (Grad (Coefficient dilation)))))
           (Identity 3)).

(** The solver that [__init__] builds from settings holding the key
    [temperature_distribution] with the value [None]. *)
Definition cold_settings : gmap string pyval :=
  <["temperature_distribution" := PyNone]> ∅.
Definition cold_base : Base := base_from (solver_with [("fixed", fixed_face)] None false).

(** A base class whose static solve fails. *)
Definition failing_base : Base := {|
  SolverBase_init := fun _ => solver_with [] None false;
  translate_value := fun _ => ConstantS 0;
  solve_transient := fun _ => Err EngineError
|}.

(** An engine whose name space holds [tr] and neither [eps] nor [v]. *)
Definition engine_with_tr : Engine := {|
  assemble := fun _ => 1;
  project := fun _ _ _ => 0;
  first_eigenvector := fun _ _ V => Ok (mkFunction V (fun _ _ => 0) (fun _ _ _ => 0));
  dolfin_exports := fun name => if String.eqb name "tr" then Some (PyObject "tr") else None;
  builtins := fun _ => None
|}.

(** An interpolation that samples constants. *)
Definition sample (e : ufl) (V : FunSpace) : result Function :=
  match e with
  | ConstantV c => Ok (mkFunction V (fun _ i => nth i c 0) (fun _ _ _ => 0))
  | _ => Err EngineError
  end.

End Plate.

Import Plate.

(** * Properties *)

(** ** Divisions *)

Lemma pydiv_ok (x y : R) : y <> 0 -> pydiv x y = Ok (x / y).
Proof.
  intros Hy. unfold pydiv. destruct (Req_dec_T y 0) as [E | _]; [contradiction | reflexivity].
Qed.

Lemma pydiv_zero (x : R) : pydiv x 0 = Err ZeroDivisionError.
Proof.
  unfold pydiv. destruct (Req_dec_T 0 0) as [_ | N]; [reflexivity | contradiction N; reflexivity].
Qed.

Lemma lame_parameters_ok (m : Material) :
  poisson_ratio m <> -1 -> poisson_ratio m <> 1 / 2 ->
  lame_parameters m =
    Ok (elastic_modulus m / (2 * (1 + poisson_ratio m)),
        elastic_modulus m * poisson_ratio m /
          ((1 + poisson_ratio m) * (1 - 2 * poisson_ratio m))).
Proof.
  intros H1 H2. unfold lame_parameters.
  assert (Hmu : 2 * (1 + poisson_ratio m) <> 0) by (intros E; apply H1; lra).
  assert (Hla : (1 + poisson_ratio m) * (1 - 2 * poisson_ratio m) <> 0).
  { apply Rmult_integral_contrapositive_currified; intros E; [apply H1 | apply H2]; lra. }
  rewrite (pydiv_ok _ _ Hmu), (pydiv_ok _ _ Hla). reflexivity.
Qed.


(** ** Sums and matrix values *)

Lemma rsum_ext (n : nat) (f g : nat -> R) :
  (forall k, (k < n)%nat -> f k = g k) -> rsum n f = rsum n g.
Proof.
  induction n as [| n IH]; intros Hfg; simpl.
  - reflexivity.
  - rewrite IH by (intros k Hk; apply Hfg; lia).
    rewrite (Hfg n) by lia. reflexivity.
Qed.

Lemma rsum_const (n : nat) (c : R) : rsum n (fun _ => c) = INR n * c.
Proof.
  induction n as [| n IH].
  - simpl. lra.
  - change (rsum (S n) (fun _ => c)) with (rsum n (fun _ => c) + c).
    rewrite IH, S_INR. lra.
Qed.

Lemma rsum_zero (n : nat) (f : nat -> R) :
  (forall k, (k < n)%nat -> f k = 0) -> rsum n f = 0.
Proof.
  intros Hf. rewrite (rsum_ext n f (fun _ => 0) Hf), rsum_const. lra.
Qed.

Lemma kron_diag (k : nat) : kron k k = 1.
Proof. unfold kron. rewrite Nat.eqb_refl. reflexivity. Qed.

(** The trace of [c * I] in dimension [d]. *)
Lemma trace_dilation (d : nat) (c : R) (eps : nat -> nat -> R) :
  (forall i j, (i < d)%nat -> (j < d)%nat -> eps i j = c * kron i j) ->
  rsum d (fun k => eps k k) = INR d * c.
Proof.
  intros Heps. rewrite <- rsum_const. apply rsum_ext.
  intros k Hk. rewrite (Heps k k Hk Hk), kron_diag. lra.
Qed.

(** The value of the tree returned by [sigma], from the value of the
    strain. *)
Lemma eval_stress_tree (x : point) (strain : ufl) (d : nat) (a b : R)
    (eps : nat -> nat -> R) :
  eval x strain = Some (Matrix d d eps) ->
  eval x (Add (Mul (FloatValue a) strain)
              (Mul (Mul (FloatValue b) (Tr strain)) (Identity d))) =
    Some (Matrix d d (fun i j =>
            a * eps i j + b * rsum d (fun k => eps k k) * kron i j)).
Proof.
  intros Heps. cbn [eval]. rewrite Heps.
  rewrite Nat.eqb_refl. cbn [val_mul val_scale val_add].
  rewrite Nat.eqb_refl. reflexivity.
Qed.

(** The value of the tree built by [von_Mises], from the value of the
    stress. *)
Lemma eval_von_Mises_tree (x : point) (sg : ufl) (d : nat) (stress : nat -> nat -> R) :
  eval x sg = Some (Matrix d d stress) ->
  let s := Sub sg (Mul (Mul (FloatValue (1 / 3)) (Tr sg)) (Identity d)) in
  let dev := fun i j =>
    stress i j + -1 * (1 / 3 * rsum d (fun k => stress k k) * kron i j) in
  let q := 3 / 2 * rsum d (fun i => rsum d (fun j => dev i j * dev i j)) in
  eval x (Sqrt (Mul (FloatValue (3 / 2)) (Inner s s))) =
    if Rle_dec 0 q then Some (Scalar (sqrt q)) else None.
Proof.
  intros Hsg s dev q. subst s. cbn [eval]. rewrite Hsg.
  rewrite Nat.eqb_refl. cbn [val_mul val_scale val_add].
  rewrite Nat.eqb_refl. cbn [andb val_inner].
  rewrite Nat.eqb_refl. cbn [andb val_mul val_scale].
  reflexivity.
Qed.

(** A stress that vanishes has von Mises value [0]. *)
Lemma eval_von_Mises_zero (x : point) (sg : ufl) (d : nat) (stress : nat -> nat -> R) :
  eval x sg = Some (Matrix d d stress) ->
  (forall i j, stress i j = 0) ->
  let s := Sub sg (Mul (Mul (FloatValue (1 / 3)) (Tr sg)) (Identity d)) in
  eval x (Sqrt (Mul (FloatValue (3 / 2)) (Inner s s))) = Some (Scalar 0).
Proof.
  intros Hsg Hzero s. subst s.
  rewrite (eval_von_Mises_tree x sg d stress Hsg).
  assert (Htr : rsum d (fun k => stress k k) = 0)
    by (apply rsum_zero; intros k _; apply Hzero).
  assert (Hq : 3 / 2 * rsum d (fun i => rsum d (fun j =>
            (stress i j + -1 * (1 / 3 * rsum d (fun k => stress k k) * kron i j)) *
            (stress i j + -1 * (1 / 3 * rsum d (fun k => stress k k) * kron i j)))) = 0).
  { rewrite Htr. rewrite rsum_zero; [lra |].
    intros i _. apply rsum_zero. intros j _. rewrite Hzero. ring. }
  rewrite Hq. destruct (Rle_dec 0 0) as [_ | N]; [| exfalso; apply N; lra].
  rewrite sqrt_0. reflexivity.
Qed.

Section Properties.
Context {engine : Engine} {base : Base}.

(** ** C1: the constitutive law *)

(** C1.  With a material for which the two divisions are defined, [sigma]
    returns the tree [2*mu*sym(grad(u)) + lmbda*tr(sym(grad(u)))*Identity(len(u))]
    with [mu = E/(2(1+nu))] and [lmbda = E*nu/((1+nu)(1-2nu))].  Wherever the
    strain [sym(grad(u))] has the value [eps], the stress has the entries
    [2*mu*eps_ij + lmbda*tr(eps)*delta_ij]; when [eps = c*I] in dimension
    [d] these are [c*(2*mu + d*lmbda)*delta_ij]. *)
Theorem sigma_isotropic_law (self : Solver) (u : ufl) (d : nat) :
  poisson_ratio (material self) <> -1 ->
  poisson_ratio (material self) <> 1 / 2 ->
  ufl_len u = Ok d ->
  let E := elastic_modulus (material self) in
  let nu := poisson_ratio (material self) in
  let mu := E / (2 * (1 + nu)) in
  let lmbda := E * nu / ((1 + nu) * (1 - 2 * nu)) in
  let tree := Add (Mul (FloatValue (2 * mu)) (Sym (Grad u)))
                  (Mul (Mul (FloatValue lmbda) (Tr (Sym (Grad u)))) (Identity d)) in
  sigma self u = Ok tree /\
  forall (x : point) (eps : nat -> nat -> R),
    eval x (Sym (Grad u)) = Some (Matrix d d eps) ->
    exists stress,
      eval x tree = Some (Matrix d d stress) /\
      (forall i j,
          stress i j = 2 * mu * eps i j + lmbda * rsum d (fun k => eps k k) * kron i j) /\
      (forall c,
          (forall i j, (i < d)%nat -> (j < d)%nat -> eps i j = c * kron i j) ->
          forall i j, (i < d)%nat -> (j < d)%nat ->
            stress i j = c * (2 * mu + INR d * lmbda) * kron i j).
Proof.
  intros Hm1 Hhalf Hlen E nu mu lmbda tree. split.
  - unfold sigma. rewrite (lame_parameters_ok _ Hm1 Hhalf). cbn.
    rewrite Hlen. reflexivity.
  - intros x eps Heps.
    exists (fun i j => 2 * mu * eps i j + lmbda * rsum d (fun k => eps k k) * kron i j).
    split; [| split].
    + apply eval_stress_tree. exact Heps.
    + reflexivity.
    + intros c Hdil i j Hi Hj.
      rewrite (trace_dilation d c eps Hdil), (Hdil i j Hi Hj). ring.
Qed.

(** ** C9: von Mises stress *)

(** C9.  [von_Mises] returns the projection onto the scalar space
    [FunctionSpace(mesh, 'P', 1)] of [sqrt(3/2*inner(s, s))] with
    [s = sigma(u) - (1/3)*tr(sigma(u))*Identity(dimension)].  When the
    gradient of [u] vanishes everywhere (and the projection of an integrand
    that is [0] everywhere is the zero field), the result is [0]
    everywhere. *)
Theorem von_Mises_projection (self : Solver) (u : ufl) (d : nat) :
  poisson_ratio (material self) <> -1 ->
  poisson_ratio (material self) <> 1 / 2 ->
  ufl_len u = Ok d ->
  exists sg,
    sigma self u = Ok sg /\
    let s := Sub sg (Mul (Mul (FloatValue (1 / 3)) (Tr sg)) (Identity (dimension self))) in
    let vm := Sqrt (Mul (FloatValue (3 / 2)) (Inner s s)) in
    let V := FunctionSpace (mesh self) "P" 1 in
    von_Mises self u = Ok (project vm V) /\
    (dimension self = d ->
     (forall e W, (forall x, eval x e = Some (Scalar 0)) -> forall x, project e W x = 0) ->
     (forall x, exists g, eval x (Grad u) = Some (Matrix d d g) /\ forall i j, g i j = 0) ->
     forall x, project vm V x = 0).
Proof.
  intros Hm1 Hhalf Hlen.
  assert (Hsg : sigma self u = Ok
    (Add (Mul (FloatValue (2 * (elastic_modulus (material self) /
                                 (2 * (1 + poisson_ratio (material self))))))
              (Sym (Grad u)))
         (Mul (Mul (FloatValue (elastic_modulus (material self) * poisson_ratio (material self) /
                      ((1 + poisson_ratio (material self)) *
                       (1 - 2 * poisson_ratio (material self)))))
                   (Tr (Sym (Grad u))))
              (Identity d)))).
  { unfold sigma. rewrite (lame_parameters_ok _ Hm1 Hhalf). cbn. rewrite Hlen. reflexivity. }
  eexists. split; [exact Hsg |].
  cbv zeta. split.
  - unfold von_Mises, von_Mises_expr. rewrite Hsg. reflexivity.
  - intros Hdim Hproj Hzero x. apply Hproj. clear x. intros x.
    destruct (Hzero x) as [g [Hg Hg0]].
    rewrite Hdim.
    assert (Heps : eval x (Sym (Grad u)) =
                   Some (Matrix d d (fun i j => (g i j + g j i) / 2))).
    { cbn [eval] in Hg |- *. rewrite Hg, Nat.eqb_refl. reflexivity. }
    eapply eval_von_Mises_zero.
    + apply eval_stress_tree. exact Heps.
    + intros i j. cbv beta.
      rewrite rsum_zero by (intros k _; rewrite Hg0; lra).
      rewrite !Hg0. lra.
Qed.

(** ** C6: the Lame parameters *)

Lemma lame_parameters_minus_one (m : Material) :
  poisson_ratio m = -1 -> lame_parameters m = Err ZeroDivisionError.
Proof.
  intros Hnu. unfold lame_parameters. rewrite Hnu.
  replace (2 * (1 + -1)) with 0 by lra.
  rewrite pydiv_zero. reflexivity.
Qed.

Lemma lame_parameters_half (m : Material) :
  poisson_ratio m = 1 / 2 -> lame_parameters m = Err ZeroDivisionError.
Proof.
  intros Hnu. unfold lame_parameters. rewrite Hnu.
  replace ((1 + 1 / 2) * (1 - 2 * (1 / 2))) with 0 by lra.
  rewrite pydiv_zero.
  rewrite pydiv_ok by lra. reflexivity.
Qed.

(** C6, as the program has it.  The computation validates nothing and
    knows no [InvalidMaterialError]: at [nu = -1] and at [nu = 1/2] a
    division raises [ZeroDivisionError], and for every other [nu], in the
    interval or not, and every [E], positive or not, it returns a pair. *)
Theorem lame_parameters_behaviour (m : Material) :
  let nu := poisson_ratio m in
  (nu = -1 \/ nu = 1 / 2 -> lame_parameters m = Err ZeroDivisionError) /\
  (nu <> -1 -> nu <> 1 / 2 -> exists mu lmbda, lame_parameters m = Ok (mu, lmbda)).
Proof.
  intros nu. split.
  - intros [Hnu | Hnu].
    + apply lame_parameters_minus_one. exact Hnu.
    + apply lame_parameters_half. exact Hnu.
  - intros H1 H2. eexists. eexists. apply lame_parameters_ok; assumption.
Qed.

(** ** C2, C3: force boundaries *)

Lemma truthy_zero : truthy (PyNum 0) = false.
Proof.
  unfold truthy. destruct (Req_dec_T 0 0) as [_ | N]; [reflexivity | exfalso; apply N; reflexivity].
Qed.

Lemma truthy_nonzero (r : R) : r <> 0 -> truthy (PyNum r) = true.
Proof.
  intros Hr. unfold truthy. destruct (Req_dec_T r 0) as [E | _]; [contradiction | reflexivity].
Qed.

(** C2, as the program has it.  A force entry divides its value by the area
    [A = assemble(Constant(1)*ds(boundary_id))] of the marked facets.  The
    area is not tested: at [A = 0] the division itself raises,
    [ZeroDivisionError] for a number and the error of UFL for an
    expression, and nothing is appended; for any other [A] a force given by
    a vector constant of the size of the test function appends
    [dot(g, v)*ds(i)] with [g = force / A]. *)
Theorem force_traction_magnitude (V : FunSpace) (v : ufl) (boundary_facets : FacetFunction)
    (mesh_normal : ufl) (integrals_F : list Form) (bcs : list DirichletBC)
    (bc : BoundaryCondition) :
  bc_type bc = "force" ->
  let A := assemble (times (ConstantS 1) (ds boundary_facets (boundary_id bc))) in
  (forall force, value bc = PyNum force -> A = 0 ->
     bc_step V v boundary_facets mesh_normal (integrals_F, bcs) bc = Err ZeroDivisionError) /\
  (forall e, value bc = PyExpr e -> A = 0 ->
     bc_step V v boundary_facets mesh_normal (integrals_F, bcs) bc = Err EngineError) /\
  (forall c, value bc = PyExpr (ConstantV c) -> A <> 0 ->
     ufl_shape v = Some [length c] ->
     bc_step V v boundary_facets mesh_normal (integrals_F, bcs) bc =
       Ok (integrals_F ++
             [times (Dot (Div (ConstantV c) (FloatValue A)) v)
                (ds boundary_facets (boundary_id bc))],
           bcs)).
Proof.
  intros Htype A. unfold bc_step. rewrite Htype.
  change (String.eqb "force" "Dirichlet" || String.eqb "force" "displacement") with false.
  change (String.eqb "force" "force") with true. cbv iota. fold A.
  split; [| split].
  - intros force Hvalue HA. rewrite Hvalue, HA. cbn [div_by_float].
    rewrite pydiv_zero. reflexivity.
  - intros e Hvalue HA. rewrite Hvalue, HA. cbn [div_by_float].
    destruct (Req_dec_T 0 0) as [_ | N]; [reflexivity | exfalso; apply N; reflexivity].
  - intros c Hvalue HA Hshape. rewrite Hvalue. cbn [div_by_float].
    destruct (Req_dec_T A 0) as [E | _]; [contradiction |].
    cbn [mbind result_bind rbind].
    unfold dot. cbn [ufl_shape length]. rewrite Hshape. cbn [List.last].
    rewrite Nat.eqb_refl. cbn [mbind result_bind rbind].
    unfold integrate. cbn [ufl_shape length]. rewrite Hshape.
    cbn [List.last List.removelast app]. rewrite Nat.eqb_refl. reflexivity.
Qed.

(** C3, on the program.  The term a force entry appends is the same
    whatever its [direction] is, present or not: [direction_vector] is
    assigned and never used. *)
Theorem force_term_ignores_direction (V : FunSpace) (v : ufl)
    (boundary_facets : FacetFunction) (mesh_normal : ufl)
    (st : list Form * list DirichletBC) (b : SubDomain) (id : nat) (force : pyval)
    (d1 d2 : option pyval) :
  bc_step V v boundary_facets mesh_normal st (mkBC b id "force" force d1) =
  bc_step V v boundary_facets mesh_normal st (mkBC b id "force" force d2).
Proof.
  destruct st as [integrals_F bcs]. reflexivity.
Qed.

(** ** C4: per-axis displacement *)

(** A prescribed [0] is handled exactly as an omitted axis. *)
Lemma axis_loop_zero_as_None (V : FunSpace) (boundary_facets : FacetFunction) (i : nat)
    (pre post : list pyval) :
  forall (axis_i : nat) (bcs : list DirichletBC),
    axis_loop V boundary_facets i axis_i (pre ++ PyNum 0 :: post) bcs =
    axis_loop V boundary_facets i axis_i (pre ++ PyNone :: post) bcs.
Proof.
  induction pre as [| disp pre IH]; intros axis_i bcs.
  - cbn [app axis_loop]. rewrite truthy_zero. reflexivity.
  - cbn [app axis_loop]. destruct (truthy disp).
    + destruct (Constant disp) as [c | e]; cbn; [apply IH | reflexivity].
    + apply IH.
Qed.

(** C4, on the program.  A displacement entry with the per-axis value
    [[0, 0, 0]] registers no constraint at all, and with [[0, None, 1]] only
    the third axis is constrained: the test [if disp:] drops a prescribed
    [0] together with [None]. *)
Theorem zero_displacement_axis_unconstrained (V : FunSpace) (v : ufl)
    (boundary_facets : FacetFunction) (mesh_normal : ufl)
    (integrals_F : list Form) (bcs : list DirichletBC) (b : SubDomain) (id : nat) :
  bc_step V v boundary_facets mesh_normal (integrals_F, bcs)
    (mkBC b id "Dirichlet" (PyList [PyNum 0; PyNum 0; PyNum 0]) None) =
    Ok (integrals_F, bcs) /\
  bc_step V v boundary_facets mesh_normal (integrals_F, bcs)
    (mkBC b id "Dirichlet" (PyList [PyNum 0; PyNone; PyNum 1]) None) =
    Ok (integrals_F, bcs ++ [mkDirichletBC (SubSpace V 2) (ConstantS 1) boundary_facets id]).
Proof.
  split.
  - cbn -[truthy]. rewrite truthy_zero. reflexivity.
  - cbn -[truthy]. rewrite truthy_zero, (truthy_nonzero 1) by lra. reflexivity.
Qed.

(** ** The assembly loop *)

Lemma raises_bind {A B} (r : result A) (k : A -> result B) :
  (forall a, r = Ok a -> raises (k a)) -> raises (r ≫= k).
Proof.
  intros Hk. destruct r as [a | e]; cbn; [apply Hk; reflexivity | exact I].
Qed.


Lemma bc_loop_app (V : FunSpace) (v : ufl) (boundary_facets : FacetFunction)
    (mesh_normal : ufl) (pre post : list (string * BoundaryCondition)) :
  forall st,
    bc_loop V v boundary_facets mesh_normal (pre ++ post) st =
    bc_loop V v boundary_facets mesh_normal pre st ≫=
      bc_loop V v boundary_facets mesh_normal post.
Proof.
  induction pre as [| [name bc] pre IH]; intros st.
  - reflexivity.
  - cbn [app bc_loop].
    destruct (bc_step V v boundary_facets mesh_normal st bc) as [st' | e]; cbn.
    + apply IH.
    + reflexivity.
Qed.



Lemma update_boundary_conditions_loop (self : Solver) :
  loads_ready self ->
  exists a loads, forall time_iter_ u_0 u_1,
    update_boundary_conditions self time_iter_ u_0 u_1 =
    bc_loop (function_space self) (TestFunction (function_space self))
      (mark_boundaries (boundary_conditions self)) (FacetNormal (mesh self))
      (boundary_conditions self) (loads, []) ≫=
    (fun '(integrals_F, bcs) => Ok (fold_left form_add integrals_F a, bcs)).
Proof.
  intros (Hm1 & Hhalf & [n Hlen] & [b Hb] & [td Htd]).
  eexists. eexists. intros time_iter_ u_0 u_1.
  unfold update_boundary_conditions, sigma.
  rewrite (lame_parameters_ok _ Hm1 Hhalf). cbn -[truthy bc_loop].
  unfold TrialFunction in Hlen. cbn [ufl_len] in Hlen. rewrite Hlen.
  cbn -[truthy bc_loop]. rewrite Hb. change (truthy (PyExpr b)) with true.
  cbn -[truthy bc_loop]. rewrite Htd. cbn -[truthy bc_loop].
  reflexivity.
Qed.


(** ** C5: unsupported boundary types *)


(** ** C7: boundary ids *)

Lemma bc_loop_dirichlet (V : FunSpace) (v : ufl) (boundary_facets : FacetFunction)
    (mesh_normal : ufl) (specs : list (string * SubDomain * nat * ufl)) :
  forall integrals_F bcs,
    bc_loop V v boundary_facets mesh_normal (map dirichlet_entry specs) (integrals_F, bcs) =
    Ok (integrals_F, bcs ++ map (dirichlet_constraint V boundary_facets) specs).
Proof.
  induction specs as [| [[[name b] id] e] specs IH]; intros integrals_F bcs.
  - cbn. rewrite app_nil_r. reflexivity.
  - cbn [map dirichlet_entry bc_loop]. cbn -[bc_loop].
    rewrite IH. rewrite <- app_assoc. reflexivity.
Qed.

Lemma dirichlet_entries_assembled (self : Solver) (time_iter_ : nat)
    (u_0 u_1 : option Function) (specs : list (string * SubDomain * nat * ufl)) :
  loads_ready self ->
  boundary_conditions self = map dirichlet_entry specs ->
  exists F,
    update_boundary_conditions self time_iter_ u_0 u_1 =
    Ok (F, map (dirichlet_constraint (function_space self)
                  (mark_boundaries (boundary_conditions self))) specs).
Proof.
  intros Hready Hitems.
  destruct (update_boundary_conditions_loop self Hready) as (a & loads & Hloop).
  rewrite Hloop.
  set (boundary_facets := mark_boundaries (boundary_conditions self)).
  rewrite Hitems, bc_loop_dirichlet. cbn.
  eexists. reflexivity.
Qed.



(** ** C10: the thermal attribute *)

Lemma init_body_source (case_settings : gmap string pyval) :
  exists b, body_source (__init__ case_settings) = PyExpr b.
Proof.
  unfold __init__.
  destruct (truthy (body_source (SolverBase_init case_settings)));
    [| destruct (Nat.eqb (dimension (SolverBase_init case_settings)) 3)];
    destruct (case_settings !! "temperature_distribution");
    eexists; reflexivity.
Qed.




(** ** C8: the modal request *)

(** C8, on the program.  With [solving_modal] set, and [F] bound neither by
    dolfin's exports nor by the builtins, [solve] runs the static solve and
    then fails on the name [F]: nothing is assembled and [solve_modal] is
    not reached. *)
Theorem modal_request_name_error (self : Solver) (u : Function) :
  solving_modal self = true ->
  solve_transient self = Ok u ->
  dolfin_exports "F" = None ->
  builtins "F" = None ->
  solve self = Err (NameError "F").
Proof.
  intros Hmodal Hstatic Hdolfin Hbuiltin.
  assert (HF : load_global "F" = Err (NameError "F")).
  { unfold load_global.
    change (existsb (String.eqb "F") late_module_names) with false.
    change (existsb (String.eqb "F") early_module_names) with false.
    cbv iota. rewrite Hdolfin, Hbuiltin. reflexivity. }
  unfold solve. rewrite Hstatic. cbn [mbind result_bind rbind]. rewrite Hmodal, HF.
  reflexivity.
Qed.

End Properties.

Lemma steel_ready (items : list (string * BoundaryCondition)) (td : pyval) (modal : bool) :
  loads_ready (solver_with items (Some td) modal).
Proof.
  unfold loads_ready. cbn. repeat split.
  - lra.
  - lra.
  - exists 3%nat. reflexivity.
  - eexists. reflexivity.
  - exists td. reflexivity.
Defined.

Lemma kron_sym (i j : nat) : kron j i = kron i j.
Proof. unfold kron. rewrite (Nat.eqb_sym j i). reflexivity. Defined.


(** ** Instances of the theorems on the cube *)

Lemma sigma_isotropic_law_witness :
  exists tree stress,
    sigma (solver_with [] None false) (Coefficient dilation) = Ok tree /\
    eval [] tree = Some (Matrix 3 3 stress) /\
    stress 0%nat 0%nat =
      2 * (2 * (210000000000 / (2 * (1 + 3 / 10))) +
           INR 3 * (210000000000 * (3 / 10) / ((1 + 3 / 10) * (1 - 2 * (3 / 10))))) * 1 /\
    stress 0%nat 1%nat =
      2 * (2 * (210000000000 / (2 * (1 + 3 / 10))) +
           INR 3 * (210000000000 * (3 / 10) / ((1 + 3 / 10) * (1 - 2 * (3 / 10))))) * 0.
Proof.
  destruct (sigma_isotropic_law (solver_with [] None false) (Coefficient dilation) 3)
    as (Hsigma & Hvalue).
  - cbn. lra.
  - cbn. lra.
  - reflexivity.
  - destruct (Hvalue [] (fun i j => (2 * kron i j + 2 * kron j i) / 2) eq_refl)
      as (stress & Heval & _ & Hdil).
    eexists. exists stress. split; [exact Hsigma |]. split; [exact Heval |].
    assert (Heps : forall i j, (i < 3)%nat -> (j < 3)%nat ->
                     (2 * kron i j + 2 * kron j i) / 2 = 2 * kron i j).
    { intros i j _ _. rewrite kron_sym. lra. }
    split.
    + apply (Hdil 2 Heps 0%nat 0%nat); lia.
    + apply (Hdil 2 Heps 0%nat 1%nat); lia.
Defined.

Lemma von_Mises_projection_witness :
  exists vm,
    @von_Mises (engine_with_area 1) (solver_with [] None false) (Coefficient zero_field) = Ok vm /\
    vm [] = 0.
Proof.
  destruct (@von_Mises_projection (engine_with_area 1) (solver_with [] None false)
              (Coefficient zero_field) 3) as (sg & Hsigma & Hvm & Hzero).
  - cbn. lra.
  - cbn. lra.
  - reflexivity.
  - eexists. split; [exact Hvm |].
    apply Hzero.
    + reflexivity.
    + intros e W He x. cbn. rewrite He. reflexivity.
    + intros x. exists (fun _ _ => 0). split; reflexivity.
Defined.

Lemma lame_parameters_behaviour_witness :
  lame_parameters (mkMaterial 210000000000 (1 / 2)) = Err ZeroDivisionError /\
  lame_parameters (mkMaterial 210000000000 (-1)) = Err ZeroDivisionError /\
  (exists mu lmbda, lame_parameters steel = Ok (mu, lmbda)) /\
  (exists mu lmbda, lame_parameters (mkMaterial (-1) 1) = Ok (mu, lmbda)).
Proof.
  split; [| split; [| split]].
  - apply (proj1 (lame_parameters_behaviour (mkMaterial 210000000000 (1 / 2)))).
    right. reflexivity.
  - apply (proj1 (lame_parameters_behaviour (mkMaterial 210000000000 (-1)))).
    left. reflexivity.
  - apply (proj2 (lame_parameters_behaviour steel)); cbn; lra.
  - apply (proj2 (lame_parameters_behaviour (mkMaterial (-1) 1))); cbn; lra.
Defined.

(** Outside the admissible range nothing is refused: [nu = 1] and [E = -1]
    both return values.  Inside it the values need be neither finite nor
    positive: on binary64 numbers [E = 1e308] with [nu = 0.45] gives
    [lmbda = inf], and the smallest positive [E] with [nu = 0.4] gives
    [mu = 0] and [lmbda = 0]. *)
Lemma lame_parameters_unvalidated :
  ~ (-1 < 1 < 1 / 2) /\
  lame_parameters (mkMaterial 1 1) = Ok (1 / 4, -1 / 2) /\
  -1 <= 0 /\
  lame_parameters (mkMaterial (-1) 0) = Ok (-1 / 2, 0) /\
  (exists mu, Binary64.lame_parameters Binary64.large_modulus Binary64.ratio_045 =
                Ok (mu, Binary64.inf)) /\
  Binary64.lame_parameters Binary64.least_modulus Binary64.ratio_04 =
    Ok (Binary64.zero, Binary64.zero).
Proof.
  split; [lra |]. split; [| split; [lra |]; split; [| split]].
  - rewrite lame_parameters_ok by (cbn; lra). cbn. f_equal. f_equal; lra.
  - rewrite lame_parameters_ok by (cbn; lra). cbn. f_equal. f_equal; lra.
  - eexists. vm_compute. reflexivity.
  - vm_compute. reflexivity.
Qed.

Lemma force_traction_magnitude_witness :
  @bc_step (engine_with_area 2) V3 (TestFunction V3) (set_all 0) (FacetNormal unit_cube)
    ([], []) pressed_face =
    Ok ([times (Dot (Div (ConstantV [0; 0; -1000]) (FloatValue 2)) (TestFunction V3))
           (ds (set_all 0) 2)], []) /\
  @bc_step (engine_with_area 0) V3 (TestFunction V3) (set_all 0) (FacetNormal unit_cube)
    ([], []) pushed_face = Err ZeroDivisionError /\
  @bc_step (engine_with_area 0) V3 (TestFunction V3) (set_all 0) (FacetNormal unit_cube)
    ([], []) pressed_face = Err EngineError.
Proof.
  split; [| split].
  - apply (@force_traction_magnitude (engine_with_area 2) V3 (TestFunction V3) (set_all 0)
             (FacetNormal unit_cube) [] [] pressed_face eq_refl).
    + reflexivity.
    + cbn. lra.
    + reflexivity.
  - apply (proj1 (@force_traction_magnitude (engine_with_area 0) V3 (TestFunction V3)
                    (set_all 0) (FacetNormal unit_cube) [] [] pushed_face eq_refl) 1000);
      reflexivity.
  - apply (proj1 (proj2 (@force_traction_magnitude (engine_with_area 0) V3 (TestFunction V3)
                           (set_all 0) (FacetNormal unit_cube) [] [] pressed_face eq_refl))
             (ConstantV [0; 0; -1000]));
      reflexivity.
Defined.

(** A boundary that selects no facet has area [0]: no
    [DegenerateBoundaryError] is raised, the call stops with Python's own
    division error, at the step and for the whole function. *)
Lemma force_area_unchecked :
  @bc_step (engine_with_area 0) V3 (TestFunction V3) (set_all 0) (FacetNormal unit_cube)
    ([], []) pushed_face = Err ZeroDivisionError /\
  @update_boundary_conditions (engine_with_area 0)
    (base_from (solver_with [] None false))
    (solver_with [("load", pushed_face)] (Some PyNone) false) 1 None None =
    Err ZeroDivisionError.
Proof.
  split.
  - unfold bc_step. cbn. rewrite pydiv_zero. reflexivity.
  - destruct (@update_boundary_conditions_loop (engine_with_area 0)
                (base_from (solver_with [] None false))
                (solver_with [("load", pushed_face)] (Some PyNone) false)
                (steel_ready _ _ _)) as (a & loads & Hloop).
    rewrite Hloop. unfold bc_loop, bc_step. cbn. rewrite pydiv_zero. reflexivity.
Qed.





Lemma modal_request_name_error_witness :
  @solve (engine_with_area 1) (base_from (solver_with [] None false))
    (solver_with [("fixed", fixed_face)] (Some PyNone) true) = Err (NameError "F").
Proof.
  apply (@modal_request_name_error (engine_with_area 1) (base_from (solver_with [] None false))
           (solver_with [("fixed", fixed_face)] (Some PyNone) true) zero_field
           eq_refl eq_refl eq_refl eq_refl).
Defined.



(** * Further properties of the module *)

(** ** The material law *)




(** ** The stress tensor *)

Lemma rsum_plus (n : nat) (f g : nat -> R) :
  rsum n (fun k => f k + g k) = rsum n f + rsum n g.
Proof.
  induction n as [| n IH]; simpl; [lra | rewrite IH; lra].
Qed.

Lemma rsum_scal (n : nat) (c : R) (f : nat -> R) :
  rsum n (fun k => c * f k) = c * rsum n f.
Proof.
  induction n as [| n IH]; simpl; [lra | rewrite IH; lra].
Qed.

Lemma rsum_nonneg (n : nat) (f : nat -> R) :
  (forall k, 0 <= f k) -> 0 <= rsum n f.
Proof.
  intros Hf. induction n as [| n IH]; simpl; [lra | specialize (Hf n); lra].
Qed.

Lemma rsum_kron_diag (n : nat) : rsum n (fun k => kron k k) = INR n.
Proof.
  rewrite (rsum_ext n _ (fun _ => 1)) by (intros k _; apply kron_diag).
  rewrite rsum_const. lra.
Qed.

Lemma sigma_inv (self : Solver) (u sg : ufl) :
  sigma self u = Ok sg ->
  exists mu lmbda d,
    lame_parameters (material self) = Ok (mu, lmbda) /\
    ufl_len u = Ok d /\
    sg = Add (Mul (FloatValue (2 * mu)) (Sym (Grad u)))
             (Mul (Mul (FloatValue lmbda) (Tr (Sym (Grad u)))) (Identity d)).
Proof.
  unfold sigma. intros Hok.
  destruct (lame_parameters (material self)) as [[mu lmbda] | e]; [| discriminate].
  cbn in Hok. destruct (ufl_len u) as [d | e]; [| discriminate].
  cbn in Hok. inversion Hok. exists mu, lmbda, d. repeat split.
Qed.

(** The value of a stress tree, whenever it has one. *)
Lemma eval_stress_tree_inv (x : point) (strain : ufl) (d : nat) (a b : R) (v : val) :
  eval x (Add (Mul (FloatValue a) strain)
              (Mul (Mul (FloatValue b) (Tr strain)) (Identity d))) = Some v ->
  exists eps,
    eval x strain = Some (Matrix d d eps) /\
    v = Matrix d d (fun i j => a * eps i j + b * rsum d (fun k => eps k k) * kron i j).
Proof.
  cbn [eval]. destruct (eval x strain) as [[r | n f | n m f] |]; cbn; try discriminate.
  - destruct (n =? m)%nat eqn:Hnm; cbn; [| discriminate].
    apply Nat.eqb_eq in Hnm. subst m.
    destruct (n =? d)%nat eqn:Hnd; cbn; [| discriminate].
    apply Nat.eqb_eq in Hnd. subst n.
    intros Hv. inversion Hv. exists f. split; reflexivity.
Qed.

Lemma eval_Sym_symmetric (x : point) (a : ufl) (n m : nat) (eps : nat -> nat -> R) :
  eval x (Sym a) = Some (Matrix n m eps) -> forall i j, eps i j = eps j i.
Proof.
  cbn [eval]. destruct (eval x a) as [[r | k f | k l f] |]; try discriminate.
  destruct (k =? l)%nat; [| discriminate].
  intros Hv. inversion Hv. intros i j. lra.
Qed.

(** X4.  Wherever the tree returned by [sigma] has a value, it is a square
    matrix of the size [len(u)] and it is symmetric. *)
Theorem sigma_symmetric (self : Solver) (u sg : ufl) (x : point) (v : val) :
  sigma self u = Ok sg ->
  eval x sg = Some v ->
  exists d stress,
    ufl_len u = Ok d /\ v = Matrix d d stress /\ forall i j, stress i j = stress j i.
Proof.
  intros Hsigma Heval.
  destruct (sigma_inv self u sg Hsigma) as (mu & lmbda & d & _ & Hlen & ->).
  destruct (eval_stress_tree_inv x _ d _ _ v Heval) as (eps & Heps & ->).
  eexists d, _. split; [exact Hlen |]. split; [reflexivity |].
  intros i j. cbv beta.
  rewrite (eval_Sym_symmetric x _ d d eps Heps i j).
  unfold kron. rewrite (Nat.eqb_sym i j). reflexivity.
Qed.

(** X5.  The trace of the stress is [(2*mu + d*lmbda)] times the trace of the
    strain. *)
Theorem sigma_trace (self : Solver) (u sg : ufl) (x : point) (d : nat)
    (eps stress : nat -> nat -> R) (mu lmbda : R) :
  lame_parameters (material self) = Ok (mu, lmbda) ->
  sigma self u = Ok sg ->
  eval x (Sym (Grad u)) = Some (Matrix d d eps) ->
  eval x sg = Some (Matrix d d stress) ->
  rsum d (fun k => stress k k) = (2 * mu + INR d * lmbda) * rsum d (fun k => eps k k).
Proof.
  intros Hlame Hsigma Heps Heval.
  destruct (sigma_inv self u sg Hsigma) as (mu' & lmbda' & d' & Hlame' & Hlen & ->).
  rewrite Hlame in Hlame'. inversion Hlame'. subst mu' lmbda'.
  destruct (eval_stress_tree_inv x _ d' _ _ _ Heval) as (eps' & Heps' & Hv).
  rewrite Heps in Heps'. inversion Heps'. subst d'.
  assert (Hst : stress = fun i j =>
            2 * mu * eps' i j + lmbda * rsum d (fun k => eps' k k) * kron i j)
    by (inversion Hv; reflexivity).
  assert (He : eps = eps') by (inversion Heps'; reflexivity).
  subst stress eps'. cbv beta.
  rewrite rsum_plus, !rsum_scal, rsum_kron_diag. ring.
Qed.

(** ** The von Mises integrand *)

Lemma von_Mises_square_nonneg (d : nat) (stress : nat -> nat -> R) :
  0 <= von_Mises_square d stress.
Proof.
  unfold von_Mises_square.
  assert (Hsum : 0 <= rsum d (fun i =>
            rsum d (fun j => deviator d stress i j * deviator d stress i j))).
  { apply rsum_nonneg. intros i. apply rsum_nonneg. intros j. nra. }
  lra.
Qed.

(** The tree built by [von_Mises] and its value, from the value of the
    strain. *)
Lemma von_Mises_expr_value (self : Solver) (u : ufl) (d : nat) (x : point)
    (eps : nat -> nat -> R) (mu lmbda : R) :
  lame_parameters (material self) = Ok (mu, lmbda) ->
  ufl_len u = Ok d ->
  dimension self = d ->
  eval x (Sym (Grad u)) = Some (Matrix d d eps) ->
  let stress := fun i j =>
    2 * mu * eps i j + lmbda * rsum d (fun k => eps k k) * kron i j in
  exists vm,
    von_Mises_expr self u = Ok vm /\
    eval x vm = Some (Scalar (sqrt (von_Mises_square d stress))).
Proof.
  intros Hlame Hlen Hdim Heps stress.
  eexists. split.
  - unfold von_Mises_expr, sigma. rewrite Hlame. cbn. rewrite Hlen. cbn. reflexivity.
  - rewrite Hdim.
    rewrite (eval_von_Mises_tree x _ d stress (eval_stress_tree x _ d _ _ eps Heps)).
    change (3 / 2 * rsum d (fun i => rsum d (fun j =>
              (stress i j + -1 * (1 / 3 * rsum d (fun k => stress k k) * kron i j)) *
              (stress i j + -1 * (1 / 3 * rsum d (fun k => stress k k) * kron i j)))))
      with (von_Mises_square d stress).
    destruct (Rle_dec 0 (von_Mises_square d stress)) as [_ | N]; [reflexivity |].
    exfalso. apply N. apply von_Mises_square_nonneg.
Qed.

(** X6.  Wherever the strain has a value of the size of the problem, the
    integrand of [von_Mises] has one too, and it is not negative: the square
    root is never taken of a negative number. *)
Theorem von_Mises_defined (self : Solver) (u : ufl) (d : nat) (x : point)
    (eps : nat -> nat -> R) (mu lmbda : R) :
  lame_parameters (material self) = Ok (mu, lmbda) ->
  ufl_len u = Ok d ->
  dimension self = d ->
  eval x (Sym (Grad u)) = Some (Matrix d d eps) ->
  exists vm r,
    von_Mises_expr self u = Ok vm /\ eval x vm = Some (Scalar r) /\ 0 <= r.
Proof.
  intros Hlame Hlen Hdim Heps.
  destruct (von_Mises_expr_value self u d x eps mu lmbda Hlame Hlen Hdim Heps)
    as (vm & Hvm & Hval).
  exists vm. eexists. split; [exact Hvm |]. split; [exact Hval |].
  apply sqrt_pos.
Qed.

Lemma von_Mises_square_ext (d : nat) (s t : nat -> nat -> R) :
  (forall i j, (i < d)%nat -> (j < d)%nat -> s i j = t i j) ->
  von_Mises_square d s = von_Mises_square d t.
Proof.
  intros Hst. unfold von_Mises_square. f_equal.
  assert (Htr : rsum d (fun k => s k k) = rsum d (fun k => t k k))
    by (apply rsum_ext; intros k Hk; apply Hst; assumption).
  apply rsum_ext. intros i Hi. apply rsum_ext. intros j Hj.
  unfold deviator. rewrite Htr, (Hst i j Hi Hj). reflexivity.
Qed.

(** The radicand for the stress [k*I] in dimensions three and two. *)
Lemma von_Mises_square_hydrostatic_3 (k : R) :
  von_Mises_square 3 (fun i j => k * kron i j) = 0.
Proof.
  unfold von_Mises_square, deviator, kron. cbn. field.
Qed.

Lemma von_Mises_square_hydrostatic_2 (k : R) :
  von_Mises_square 2 (fun i j => k * kron i j) = k * k / 3.
Proof.
  unfold von_Mises_square, deviator, kron. cbn. field.
Qed.

Lemma dilation_stress (d : nat) (c mu lmbda : R) (eps : nat -> nat -> R) :
  (forall i j, (i < d)%nat -> (j < d)%nat -> eps i j = c * kron i j) ->
  forall i j, (i < d)%nat -> (j < d)%nat ->
    2 * mu * eps i j + lmbda * rsum d (fun k => eps k k) * kron i j =
    c * (2 * mu + INR d * lmbda) * kron i j.
Proof.
  intros Hdil i j Hi Hj.
  rewrite (trace_dilation d c eps Hdil), (Hdil i j Hi Hj). ring.
Qed.

(** X7.  In three dimensions a pure dilation [eps = c*I] has the von Mises value
    [0]: a hydrostatic stress has no deviator. *)
Theorem von_Mises_dilation_3d (self : Solver) (u : ufl) (x : point)
    (eps : nat -> nat -> R) (c mu lmbda : R) :
  lame_parameters (material self) = Ok (mu, lmbda) ->
  ufl_len u = Ok 3%nat ->
  dimension self = 3%nat ->
  eval x (Sym (Grad u)) = Some (Matrix 3 3 eps) ->
  (forall i j, (i < 3)%nat -> (j < 3)%nat -> eps i j = c * kron i j) ->
  exists vm, von_Mises_expr self u = Ok vm /\ eval x vm = Some (Scalar 0).
Proof.
  intros Hlame Hlen Hdim Heps Hdil.
  destruct (von_Mises_expr_value self u 3 x eps mu lmbda Hlame Hlen Hdim Heps)
    as (vm & Hvm & Hval).
  exists vm. split; [exact Hvm |]. rewrite Hval.
  rewrite (von_Mises_square_ext 3 _ (fun i j => c * (2 * mu + INR 3 * lmbda) * kron i j)
             (dilation_stress 3 c mu lmbda eps Hdil)).
  rewrite von_Mises_square_hydrostatic_3, sqrt_0. reflexivity.
Qed.

(** X8.  In two dimensions the factor [1/3] of the deviator stays: the same
    dilation, with the hydrostatic stress [k*I], [k = c*(2*mu + 2*lmbda)],
    has the von Mises value [sqrt(k*k/3)], which is [0] only for [k = 0]. *)
Theorem von_Mises_dilation_2d (self : Solver) (u : ufl) (x : point)
    (eps : nat -> nat -> R) (c mu lmbda : R) :
  lame_parameters (material self) = Ok (mu, lmbda) ->
  ufl_len u = Ok 2%nat ->
  dimension self = 2%nat ->
  eval x (Sym (Grad u)) = Some (Matrix 2 2 eps) ->
  (forall i j, (i < 2)%nat -> (j < 2)%nat -> eps i j = c * kron i j) ->
  let k := c * (2 * mu + 2 * lmbda) in
  exists vm r,
    von_Mises_expr self u = Ok vm /\ eval x vm = Some (Scalar r) /\
    r = sqrt (k * k / 3) /\ (r = 0 <-> k = 0).
Proof.
  intros Hlame Hlen Hdim Heps Hdil k.
  destruct (von_Mises_expr_value self u 2 x eps mu lmbda Hlame Hlen Hdim Heps)
    as (vm & Hvm & Hval).
  exists vm, (sqrt (k * k / 3)). split; [exact Hvm |]. split; [| split].
  - rewrite Hval.
    rewrite (von_Mises_square_ext 2 _ (fun i j => c * (2 * mu + INR 2 * lmbda) * kron i j)
               (dilation_stress 2 c mu lmbda eps Hdil)).
    rewrite von_Mises_square_hydrostatic_2.
    change (INR 2) with (1 + 1). subst k.
    replace (1 + 1) with 2 by lra. reflexivity.
  - reflexivity.
  - split.
    + intros Hr. apply sqrt_eq_0 in Hr; nra.
    + intros Hk. rewrite Hk. replace (0 * 0 / 3) with 0 by lra. apply sqrt_0.
Qed.

(** ** Sums of forms *)

Lemma integrate_inv (e : ufl) (m : Measure) :
  integrate e m = Ok (times e m) \/ exists err, integrate e m = Err err.
Proof.
  unfold integrate. destruct (ufl_shape e) as [[| n s] |]; eauto.
Qed.

Lemma insert_integral_In (I J : Integral) (F : Form) :
  In I (insert_integral J F) <-> I = J \/ In I F.
Proof.
  induction F as [| K rest IH]; cbn.
  - intuition congruence.
  - destruct (Nat.leb (integral_rank K) (integral_rank J)); cbn; rewrite ?IH;
      intuition congruence.
Qed.

Lemma sorted_onto_In (I : Integral) (l : list Integral) :
  forall acc : Form,
    In I (fold_left (fun F J => insert_integral J F) l acc) <-> In I acc \/ In I l.
Proof.
  induction l as [| J rest IH]; intros acc; cbn.
  - intuition.
  - rewrite IH, insert_integral_In. intuition congruence.
Qed.

Lemma form_add_In (I : Integral) (F G : Form) :
  In I (form_add F G) <-> In I F \/ In I G.
Proof.
  unfold form_add, sorted_integrals. rewrite sorted_onto_In, in_app_iff. cbn. intuition.
Qed.

Lemma fold_form_add_In (I : Integral) (l : list Form) :
  forall a : Form, In I (fold_left form_add l a) <-> In I a \/ In I (concat l).
Proof.
  induction l as [| f rest IH]; intros a; cbn.
  - intuition.
  - rewrite IH, form_add_In, in_app_iff. intuition.
Qed.

Lemma insert_integral_front (I x : Integral) (F : Form) :
  integral_rank x = 0%nat -> insert_integral I (x :: F) = x :: insert_integral I F.
Proof.
  intros Hx. cbn [insert_integral]. rewrite Hx. reflexivity.
Qed.

Lemma sorted_onto_front (x : Integral) (l : list Integral) :
  integral_rank x = 0%nat ->
  forall acc : Form,
    fold_left (fun F J => insert_integral J F) l (x :: acc) =
    x :: fold_left (fun F J => insert_integral J F) l acc.
Proof.
  intros Hx. induction l as [| J rest IH]; intros acc; cbn [fold_left].
  - reflexivity.
  - rewrite (insert_integral_front J x acc Hx). apply IH.
Qed.

Lemma form_add_front (x : Integral) (F G : Form) :
  integral_rank x = 0%nat -> form_add (x :: F) G = x :: form_add F G.
Proof.
  intros Hx. unfold form_add, sorted_integrals. cbn [app fold_left insert_integral].
  apply sorted_onto_front. exact Hx.
Qed.

Lemma fold_form_add_front (x : Integral) (l : list Form) :
  integral_rank x = 0%nat ->
  forall F : Form, fold_left form_add l (x :: F) = x :: fold_left form_add l F.
Proof.
  intros Hx. induction l as [| G rest IH]; intros F; cbn [fold_left].
  - reflexivity.
  - rewrite (form_add_front x F G Hx). apply IH.
Qed.

(** ** How the assembly composes *)

Section Assembly.
Context {engine : Engine} {base : Base}.

(** X3.  A degenerate Poisson ratio stops the stress, the von Mises
    post-processing and the assembly alike, with Python's division error
    and before anything else is looked at. *)
Theorem degenerate_material_fails (self : Solver) (u : ufl) (time_iter_ : nat)
    (u_0 u_1 : option Function) :
  poisson_ratio (material self) = -1 \/ poisson_ratio (material self) = 1 / 2 ->
  sigma self u = Err ZeroDivisionError /\
  von_Mises self u = Err ZeroDivisionError /\
  update_boundary_conditions self time_iter_ u_0 u_1 = Err ZeroDivisionError.
Proof.
  intros Hnu.
  assert (Hlame : lame_parameters (material self) = Err ZeroDivisionError).
  { destruct Hnu as [Hnu | Hnu];
      [apply lame_parameters_minus_one | apply lame_parameters_half]; exact Hnu. }
  assert (Hsigma : forall w, sigma self w = Err ZeroDivisionError).
  { intros w. unfold sigma. rewrite Hlame. reflexivity. }
  split; [apply Hsigma |]. split.
  - unfold von_Mises, von_Mises_expr. rewrite Hsigma. reflexivity.
  - unfold update_boundary_conditions. rewrite Hlame. reflexivity.
Qed.

Lemma axis_loop_additive (V : FunSpace) (boundary_facets : FacetFunction) (i : nat)
    (values : list pyval) :
  forall (axis_i : nat) (bcs : list DirichletBC),
    axis_loop V boundary_facets i axis_i values bcs =
    axis_loop V boundary_facets i axis_i values [] ≫= (fun new => Ok (bcs ++ new)).
Proof.
  induction values as [| disp rest IH]; intros axis_i bcs.
  - cbn. rewrite app_nil_r. reflexivity.
  - cbn [axis_loop]. destruct (truthy disp).
    + destruct (Constant disp) as [c | e]; cbn; [| reflexivity].
      rewrite (IH (S axis_i) (bcs ++ _)), (IH (S axis_i) [_]).
      destruct (axis_loop V boundary_facets i (S axis_i) rest []) as [new | e]; cbn.
      * rewrite <- app_assoc. reflexivity.
      * reflexivity.
    + apply IH.
Qed.

Lemma bc_step_additive (V : FunSpace) (v : ufl) (boundary_facets : FacetFunction)
    (mesh_normal : ufl) (st : list Form * list DirichletBC) (bc : BoundaryCondition) :
  bc_step V v boundary_facets mesh_normal st bc =
  appended st (bc_step V v boundary_facets mesh_normal ([], []) bc).
Proof.
  destruct st as [integrals_F bcs]. unfold bc_step, appended.
  destruct (String.eqb (bc_type bc) "Dirichlet" || String.eqb (bc_type bc) "displacement").
  { destruct (is_Expression_or_Constant (value bc)) as [e |].
    - cbn. rewrite app_nil_r. reflexivity.
    - destruct (py_iter (value bc)) as [values | e]; cbn; [| reflexivity].
      rewrite axis_loop_additive.
      destruct (axis_loop V boundary_facets (boundary_id bc) 0 values []) as [new | e]; cbn;
        [rewrite app_nil_r |]; reflexivity. }
  destruct (String.eqb (bc_type bc) "force").
  { destruct (div_by_float (value bc) _) as [g | e]; cbn; [| reflexivity].
    destruct (dot g v) as [gv | e]; cbn; [| reflexivity].
    destruct (integrate gv _) as [term | e]; cbn; [rewrite app_nil_r |]; reflexivity. }
  destruct (String.eqb (bc_type bc) "stress" || String.eqb (bc_type bc) "Neumann").
  { destruct (as_ufl (value bc)) as [g | e]; cbn; [| reflexivity].
    destruct (dot g v) as [gv | e]; cbn; [| reflexivity].
    destruct (integrate gv _) as [term | e]; cbn; [rewrite app_nil_r |]; reflexivity. }
  destruct (String.eqb (bc_type bc) "symmetry"); reflexivity.
Qed.

Lemma bc_loop_additive (V : FunSpace) (v : ufl) (boundary_facets : FacetFunction)
    (mesh_normal : ufl) (items : list (string * BoundaryCondition)) :
  forall st,
    bc_loop V v boundary_facets mesh_normal items st =
    appended st (bc_loop V v boundary_facets mesh_normal items ([], [])).
Proof.
  induction items as [| [name bc] rest IH]; intros [integrals_F bcs].
  - cbn. rewrite !app_nil_r. reflexivity.
  - cbn [bc_loop]. rewrite bc_step_additive.
    destruct (bc_step V v boundary_facets mesh_normal ([], []) bc) as [[t c] | e]; cbn;
      [| reflexivity].
    rewrite (IH (integrals_F ++ t, bcs ++ c)), (IH (t, c)).
    destruct (bc_loop V v boundary_facets mesh_normal rest ([], [])) as [[t' c'] | e]; cbn;
      [| reflexivity].
    rewrite !app_assoc. reflexivity.
Qed.

(** X9.  The contributions of a list do not depend on what has been accumulated
    before, and the contributions of [xs ++ ys] are those of [xs] followed
    by those of [ys]: terms and constraints already present are kept, in
    their order. *)
Theorem bc_loop_concat (V : FunSpace) (v : ufl) (boundary_facets : FacetFunction)
    (mesh_normal : ufl) (xs ys : list (string * BoundaryCondition))
    (st : list Form * list DirichletBC) :
  bc_loop V v boundary_facets mesh_normal (xs ++ ys) st =
  appended st
    (bc_loop V v boundary_facets mesh_normal xs ([], []) ≫= fun st1 =>
     appended st1 (bc_loop V v boundary_facets mesh_normal ys ([], []))).
Proof.
  rewrite bc_loop_additive, bc_loop_app. f_equal.
  destruct (bc_loop V v boundary_facets mesh_normal xs ([], [])) as [st1 | e]; cbn;
    [| reflexivity].
  apply bc_loop_additive.
Qed.

(** X10.  The first entry that fails decides the outcome: the entries after it
    are not looked at. *)
Theorem bc_loop_fails_fast (V : FunSpace) (v : ufl) (boundary_facets : FacetFunction)
    (mesh_normal : ufl) (pre post : list (string * BoundaryCondition))
    (name : string) (bc : BoundaryCondition)
    (st st' : list Form * list DirichletBC) (e : exn) :
  bc_loop V v boundary_facets mesh_normal pre st = Ok st' ->
  bc_step V v boundary_facets mesh_normal st' bc = Err e ->
  bc_loop V v boundary_facets mesh_normal (pre ++ (name, bc) :: post) st = Err e.
Proof.
  intros Hpre Hstep. rewrite bc_loop_app, Hpre. cbn. rewrite Hstep. reflexivity.
Qed.

Lemma update_boundary_conditions_unfolded (self : Solver) (time_iter_ : nat)
    (u_0 u_1 : option Function) :
  update_boundary_conditions self time_iter_ u_0 u_1 =
  (_ ← lame_parameters (material self);
   sg ← sigma self (TrialFunction (function_space self));
   b ← body_integrals self;
   td ← getattr "temperature_distribution" (temperature_distribution self);
   st ← bc_loop (function_space self) (TestFunction (function_space self))
          (mark_boundaries (boundary_conditions self)) (FacetNormal (mesh self))
          (boundary_conditions self) ([], []);
   Ok (fold_left form_add (b ++ thermal_integrals self td ++ fst st) (stiffness self sg),
       snd st)).
Proof.
  unfold update_boundary_conditions, body_integrals.
  destruct (lame_parameters (material self)) as [[mu lmbda] | e]; [| reflexivity].
  cbn [mbind result_bind rbind].
  destruct (sigma self (TrialFunction (function_space self))) as [sg | e]; [| reflexivity].
  cbn [mbind result_bind rbind].
  assert (Hloop : forall (loads : list Form) (td : pyval),
    (bc_loop (function_space self) (TestFunction (function_space self))
       (mark_boundaries (boundary_conditions self)) (FacetNormal (mesh self))
       (boundary_conditions self) (loads, [])
     ≫= fun '(integrals_F, bcs) =>
          Ok (fold_left form_add integrals_F
                (times (Inner sg (Grad (TestFunction (function_space self)))) dx), bcs)) =
    (bc_loop (function_space self) (TestFunction (function_space self))
       (mark_boundaries (boundary_conditions self)) (FacetNormal (mesh self))
       (boundary_conditions self) ([], [])
     ≫= fun st => Ok (fold_left form_add (loads ++ fst st) (stiffness self sg), snd st))).
  { intros loads td. rewrite bc_loop_additive.
    destruct (bc_loop _ _ _ _ _ ([], [])) as [[t c] | e]; cbn; reflexivity. }
  destruct (truthy (body_source self)).
  - destruct (as_ufl (body_source self)) as [b | e]; [| reflexivity].
    cbn [mbind result_bind rbind app].
    destruct (temperature_distribution self) as [td |]; [| reflexivity].
    cbn [getattr mbind result_bind rbind]. unfold thermal_integrals.
    destruct (truthy td); rewrite (Hloop _ td); reflexivity.
  - cbn [mbind result_bind rbind app].
    destruct (temperature_distribution self) as [td |]; [| reflexivity].
    cbn [getattr mbind result_bind rbind]. unfold thermal_integrals.
    destruct (truthy td); rewrite (Hloop _ td); reflexivity.
Qed.

End Assembly.

(** ** What the assembled pair contains *)

Section Contents.
Context {engine : Engine} {base : Base}.

Lemma axis_loop_constraints (V : FunSpace) (boundary_facets : FacetFunction) (i : nat)
    (P : DirichletBC -> Prop) :
  (forall k e, P (mkDirichletBC (SubSpace V k) e boundary_facets i)) ->
  forall values axis_i bcs new,
    axis_loop V boundary_facets i axis_i values bcs = Ok new ->
    Forall P bcs -> Forall P new.
Proof.
  intros HP. induction values as [| disp rest IH]; intros axis_i bcs new Hloop Hbcs.
  - cbn in Hloop. inversion Hloop. subst. exact Hbcs.
  - cbn [axis_loop] in Hloop. destruct (truthy disp).
    + destruct (Constant disp) as [c | e]; cbn in Hloop; [| discriminate].
      apply (IH _ _ _ Hloop). apply Forall_app. split; [exact Hbcs |].
      constructor; [apply HP | constructor].
    + apply (IH _ _ _ Hloop Hbcs).
Qed.

Lemma bc_step_contribution (V : FunSpace) (v : ufl) (boundary_facets : FacetFunction)
    (mesh_normal : ufl) (bc : BoundaryCondition) (t : list Form) (c : list DirichletBC) :
  bc_step V v boundary_facets mesh_normal ([], []) bc = Ok (t, c) ->
  Forall (constraint_of V boundary_facets bc) c /\
  Forall (Forall (integral_of boundary_facets bc)) t /\
  (t = [] \/ c = []).
Proof.
  unfold bc_step.
  destruct (String.eqb (bc_type bc) "Dirichlet" || String.eqb (bc_type bc) "displacement")
    eqn:Hd.
  { assert (Hty : bc_type bc = "Dirichlet" \/ bc_type bc = "displacement").
    { apply orb_true_iff in Hd. destruct Hd as [Hd | Hd]; apply String.eqb_eq in Hd; auto. }
    destruct (is_Expression_or_Constant (value bc)) as [e |].
    - intros Hok. inversion Hok. subst.
      split; [| split; [constructor | left; reflexivity]].
      constructor; [| constructor]. unfold constraint_of. cbn. auto.
    - destruct (py_iter (value bc)) as [values | e]; cbn; [| discriminate].
      destruct (axis_loop V boundary_facets (boundary_id bc) 0 values []) as [new | e] eqn:Hloop;
        cbn; [| discriminate].
      intros Hok. inversion Hok. subst.
      split; [| split; [constructor | left; reflexivity]].
      apply (axis_loop_constraints V boundary_facets (boundary_id bc) _
               (fun k e => conj eq_refl (conj eq_refl (conj (or_intror (ex_intro _ k eq_refl)) Hty)))
               values 0%nat [] c Hloop).
      constructor. }
  destruct (String.eqb (bc_type bc) "force") eqn:Hf.
  { apply String.eqb_eq in Hf.
    destruct (div_by_float (value bc) _) as [g | e]; cbn; [| discriminate].
    destruct (dot g v) as [gv | e]; cbn; [| discriminate].
    destruct (integrate_inv gv (ds boundary_facets (boundary_id bc))) as [-> | [e ->]];
      cbn; [| discriminate].
    intros Hok. inversion Hok. subst. split; [constructor |]. split; [| right; reflexivity].
    constructor; [| constructor]. constructor; [| constructor].
    split; [reflexivity | left; exact Hf]. }
  destruct (String.eqb (bc_type bc) "stress" || String.eqb (bc_type bc) "Neumann") eqn:Hs.
  { assert (Hty : bc_type bc = "stress" \/ bc_type bc = "Neumann").
    { apply orb_true_iff in Hs. destruct Hs as [Hs | Hs]; apply String.eqb_eq in Hs; auto. }
    destruct (as_ufl (value bc)) as [g | e]; cbn; [| discriminate].
    destruct (dot g v) as [gv | e]; cbn; [| discriminate].
    destruct (integrate_inv gv (ds boundary_facets (boundary_id bc))) as [-> | [e ->]];
      cbn; [| discriminate].
    intros Hok. inversion Hok. subst. split; [constructor |]. split; [| right; reflexivity].
    constructor; [| constructor]. constructor; [| constructor].
    split; [reflexivity | right; exact Hty]. }
  destruct (String.eqb (bc_type bc) "symmetry"); discriminate.
Qed.

Lemma bc_loop_contribution (V : FunSpace) (v : ufl) (boundary_facets : FacetFunction)
    (mesh_normal : ufl) (items : list (string * BoundaryCondition)) :
  forall t c,
    bc_loop V v boundary_facets mesh_normal items ([], []) = Ok (t, c) ->
    Forall (fun cn => exists name bc,
              In (name, bc) items /\ constraint_of V boundary_facets bc cn) c /\
    Forall (Forall (fun I => exists name bc,
              In (name, bc) items /\ integral_of boundary_facets bc I)) t.
Proof.
  induction items as [| [name bc] rest IH]; intros t c Hloop.
  - cbn in Hloop. inversion Hloop. split; constructor.
  - cbn [bc_loop] in Hloop.
    destruct (bc_step V v boundary_facets mesh_normal ([], []) bc) as [[t1 c1] | e] eqn:Hstep;
      cbn in Hloop; [| discriminate].
    rewrite bc_loop_additive in Hloop.
    destruct (bc_loop V v boundary_facets mesh_normal rest ([], [])) as [[t2 c2] | e] eqn:Hrest;
      cbn in Hloop; [| discriminate].
    inversion Hloop. subst t c.
    destruct (bc_step_contribution _ _ _ _ _ _ _ Hstep) as (Hc1 & Ht1 & _).
    destruct (IH t2 c2 eq_refl) as (Hc2 & Ht2).
    split; apply Forall_app; split.
    + eapply Forall_impl; [exact Hc1 |]. intros cn Hcn. exists name, bc. split; [left; reflexivity | exact Hcn].
    + eapply Forall_impl; [exact Hc2 |]. intros cn (name' & bc' & Hin & Hcn).
      exists name', bc'. split; [right; exact Hin | exact Hcn].
    + eapply Forall_impl; [exact Ht1 |]. intros f Hf.
      eapply Forall_impl; [exact Hf |]. intros I HI. exists name, bc. split; [left; reflexivity | exact HI].
    + eapply Forall_impl; [exact Ht2 |]. intros f Hf.
      eapply Forall_impl; [exact Hf |]. intros I (name' & bc' & Hin & HI).
      exists name', bc'. split; [right; exact Hin | exact HI].
Qed.

Lemma body_integrals_dx (self : Solver) (b : list Form) :
  body_integrals self = Ok b -> forall f I, In f b -> In I f -> measure I = dx.
Proof.
  unfold body_integrals. destruct (truthy (body_source self)).
  - destruct (as_ufl (body_source self)) as [e | e]; cbn; [| discriminate].
    intros Hb. inversion Hb. subst b. intros f I [<- | []] [<- | []]. reflexivity.
  - intros Hb. inversion Hb. intros f I [].
Qed.

Lemma thermal_integrals_dx (self : Solver) (td : pyval) :
  forall f I, In f (thermal_integrals self td) -> In I f -> measure I = dx.
Proof.
  unfold thermal_integrals. destruct (truthy td).
  - intros f I [<- | []] [<- | []]. reflexivity.
  - intros f I [].
Qed.

(** X12.  Whatever [update_boundary_conditions] returns: every constraint lies on
    the marks of the whole list with the id of a displacement entry of the
    list, over the function space or one of its components; every integral
    is over the domain or over the facets marked with the id of a force or
    stress entry of the list.  No constraint comes from a force or stress
    entry and no integral from a displacement entry. *)
Theorem assembled_pair_contents (self : Solver) (time_iter_ : nat)
    (u_0 u_1 : option Function) (F : Form) (bcs : list DirichletBC) :
  update_boundary_conditions self time_iter_ u_0 u_1 = Ok (F, bcs) ->
  (forall c, In c bcs ->
     exists name bc,
       In (name, bc) (boundary_conditions self) /\
       constraint_of (function_space self) (mark_boundaries (boundary_conditions self)) bc c) /\
  (forall I, In I F ->
     measure I = dx \/
     exists name bc,
       In (name, bc) (boundary_conditions self) /\
       integral_of (mark_boundaries (boundary_conditions self)) bc I).
Proof.
  rewrite update_boundary_conditions_unfolded.
  destruct (lame_parameters (material self)) as [[mu lmbda] | e]; [| discriminate].
  cbn [mbind result_bind rbind].
  destruct (sigma self (TrialFunction (function_space self))) as [sg | e]; [| discriminate].
  cbn [mbind result_bind rbind].
  destruct (body_integrals self) as [b | e] eqn:Hb; [| discriminate].
  cbn [mbind result_bind rbind].
  destruct (temperature_distribution self) as [td |]; [| discriminate].
  cbn [getattr mbind result_bind rbind].
  destruct (bc_loop _ _ _ _ _ ([], [])) as [[t c] | e] eqn:Hloop; [| discriminate].
  cbn [mbind result_bind rbind fst snd]. intros Hok. inversion Hok. subst F bcs.
  destruct (bc_loop_contribution _ _ _ _ _ _ _ Hloop) as (Hc & Ht).
  split.
  - intros cn Hin. rewrite Forall_forall in Hc. apply Hc. apply list_elem_of_In. exact Hin.
  - intros I Hin. apply fold_form_add_In in Hin. destruct Hin as [[<- | []] | Hin].
    + left. reflexivity.
    + apply in_concat in Hin. destruct Hin as (f & Hf & HI).
      apply in_app_or in Hf. destruct Hf as [Hf | Hf];
        [left; exact (body_integrals_dx self b Hb f I Hf HI) |].
      apply in_app_or in Hf. destruct Hf as [Hf | Hf];
        [left; exact (thermal_integrals_dx self td f I Hf HI) |].
      right. rewrite Forall_forall in Ht.
      specialize (Ht f (proj2 (list_elem_of_In _ _) Hf)).
      rewrite Forall_forall in Ht. apply Ht. apply list_elem_of_In. exact HI.
Qed.

End Contents.

(** ** Per-axis displacements, directions and marks *)

Section Entries.
Context {engine : Engine} {base : Base}.

Lemma axis_loop_numbers (V : FunSpace) (boundary_facets : FacetFunction) (i : nat)
    (values : list (option R)) :
  forall (axis_i : nat) (bcs : list DirichletBC),
    axis_loop V boundary_facets i axis_i (map axis_value values) bcs =
    Ok (bcs ++ axis_constraints V boundary_facets i axis_i values).
Proof.
  induction values as [| [r |] rest IH]; intros axis_i bcs.
  - cbn. rewrite app_nil_r. reflexivity.
  - cbn [map axis_value axis_loop axis_constraints truthy].
    destruct (Req_dec_T r 0) as [E | N].
    + apply IH.
    + cbn. rewrite IH, <- app_assoc. reflexivity.
  - cbn [map axis_value axis_loop axis_constraints truthy]. apply IH.
Qed.

Lemma axis_constraints_In (V : FunSpace) (boundary_facets : FacetFunction) (i : nat)
    (values : list (option R)) :
  forall (axis_i : nat) (c : DirichletBC),
    In c (axis_constraints V boundary_facets i axis_i values) <->
    exists k r,
      nth_error values k = Some (Some r) /\ r <> 0 /\
      c = mkDirichletBC (SubSpace V (axis_i + k)) (ConstantS r) boundary_facets i.
Proof.
  induction values as [| o rest IH]; intros axis_i c.
  - cbn. split; [intros [] | intros (k & r & Hnth & _)]. destruct k; discriminate.
  - assert (Hrest : In c (axis_constraints V boundary_facets i (S axis_i) rest) <->
              exists k r, nth_error (o :: rest) (S k) = Some (Some r) /\ r <> 0 /\
                c = mkDirichletBC (SubSpace V (axis_i + S k)) (ConstantS r) boundary_facets i).
    { rewrite IH. split; intros (k & r & Hnth & Hr & Hc); exists k, r;
        (split; [exact Hnth |]; split; [exact Hr |]);
        rewrite Hc; do 2 f_equal; lia. }
    cbn [axis_constraints]. destruct o as [r |].
    + destruct (Req_dec_T r 0) as [E | N].
      * rewrite Hrest. split.
        -- intros (k & r' & H'). exists (S k), r'. exact H'.
        -- intros ([| k] & r' & Hnth & Hr & Hc).
           ++ cbn in Hnth. inversion Hnth. subst r'. contradiction.
           ++ exists k, r'. repeat split; assumption.
      * cbn [In]. rewrite Hrest. split.
        -- intros [<- | (k & r' & H')].
           ++ exists 0%nat, r. rewrite Nat.add_0_r. repeat split; assumption.
           ++ exists (S k), r'. exact H'.
        -- intros ([| k] & r' & Hnth & Hr & Hc).
           ++ cbn in Hnth. inversion Hnth. subst r'. left. rewrite Hc, Nat.add_0_r. reflexivity.
           ++ right. exists k, r'. repeat split; assumption.
    + rewrite Hrest. split.
      * intros (k & r' & H'). exists (S k), r'. exact H'.
      * intros ([| k] & r' & Hnth & Hr & Hc).
        -- cbn in Hnth. discriminate.
        -- exists k, r'. repeat split; assumption.
Qed.

Lemma axis_constraints_length (V : FunSpace) (boundary_facets : FacetFunction) (i : nat)
    (values : list (option R)) :
  forall axis_i,
    (length (axis_constraints V boundary_facets i axis_i values) <= length values)%nat.
Proof.
  induction values as [| [r |] rest IH]; intros axis_i; cbn.
  - lia.
  - destruct (Req_dec_T r 0); cbn; specialize (IH (S axis_i)); lia.
  - specialize (IH (S axis_i)). lia.
Qed.

(** X13.  A displacement entry whose value is a list of numbers and [None], no
    longer than the space has components, adds exactly one constraint for
    each axis that carries a number other than zero: on the component of
    that axis, with that number, and nothing for the other axes. *)
Theorem per_axis_constraints (V : FunSpace) (v : ufl) (boundary_facets : FacetFunction)
    (mesh_normal : ufl) (integrals_F : list Form) (bcs : list DirichletBC)
    (b : SubDomain) (id : nat) (t : string) (dir : option pyval)
    (values : list (option R)) (d : nat) :
  t = "Dirichlet" \/ t = "displacement" ->
  value_shape V = [d] ->
  (length values <= d)%nat ->
  exists new,
    bc_step V v boundary_facets mesh_normal (integrals_F, bcs)
      (mkBC b id t (PyList (map axis_value values)) dir) = Ok (integrals_F, bcs ++ new) /\
    (forall c, In c new <->
       exists k r,
         nth_error values k = Some (Some r) /\ r <> 0 /\
         c = mkDirichletBC (SubSpace V k) (ConstantS r) boundary_facets id) /\
    (length new <= length values)%nat.
Proof.
  intros Hty _ _.
  exists (axis_constraints V boundary_facets id 0 values). split; [| split].
  - unfold bc_step. cbn [bc_type value boundary_id].
    assert (Hd : String.eqb t "Dirichlet" || String.eqb t "displacement" = true).
    { destruct Hty as [-> | ->]; reflexivity. }
    rewrite Hd. cbn [is_Expression_or_Constant py_iter mbind result_bind rbind].
    rewrite axis_loop_numbers. reflexivity.
  - intros c. rewrite axis_constraints_In. reflexivity.
  - apply axis_constraints_length.
Qed.

Lemma bc_step_direction (V : FunSpace) (v : ufl) (boundary_facets : FacetFunction)
    (mesh_normal : ufl) (st : list Form * list DirichletBC) (bc : BoundaryCondition)
    (d : option pyval) :
  bc_step V v boundary_facets mesh_normal st (with_direction d bc) =
  bc_step V v boundary_facets mesh_normal st bc.
Proof.
  destruct st as [integrals_F bcs]. reflexivity.
Qed.

Lemma bc_loop_redirect (V : FunSpace) (v : ufl) (boundary_facets : FacetFunction)
    (mesh_normal : ufl) (dirs : string -> option pyval)
    (items : list (string * BoundaryCondition)) :
  forall st,
    bc_loop V v boundary_facets mesh_normal (redirect dirs items) st =
    bc_loop V v boundary_facets mesh_normal items st.
Proof.
  induction items as [| [name bc] rest IH]; intros st.
  - reflexivity.
  - cbn [redirect map fst snd bc_loop]. rewrite bc_step_direction.
    destruct (bc_step V v boundary_facets mesh_normal st bc) as [st' | e]; cbn;
      [apply IH | reflexivity].
Qed.

Lemma mark_boundaries_redirect (dirs : string -> option pyval)
    (items : list (string * BoundaryCondition)) :
  mark_boundaries (redirect dirs items) = mark_boundaries items.
Proof.
  unfold mark_boundaries. generalize (set_all 0).
  induction items as [| [name bc] rest IH]; intros ff; [reflexivity |].
  cbn [redirect map fst snd fold_left]. apply IH.
Qed.

(** X14.  The key [direction] has no effect on the assembly, for any type of
    entry: replacing, adding or removing the directions of the list leaves
    the result of [update_boundary_conditions] as it is. *)
Theorem direction_has_no_effect (self : Solver) (time_iter_ : nat)
    (u_0 u_1 : option Function) (dirs : string -> option pyval) :
  update_boundary_conditions
    (set_boundary_conditions self (redirect dirs (boundary_conditions self)))
    time_iter_ u_0 u_1 =
  update_boundary_conditions self time_iter_ u_0 u_1.
Proof.
  unfold update_boundary_conditions, sigma.
  cbn [set_boundary_conditions function_space material body_source temperature_distribution
       reference_temperature mesh boundary_conditions].
  rewrite mark_boundaries_redirect.
  destruct (lame_parameters (material self)) as [[mu lmbda] | e]; [| reflexivity].
  cbn [mbind result_bind rbind].
  destruct (ufl_len (TrialFunction (function_space self))) as [n | e]; [| reflexivity].
  cbn [mbind result_bind rbind].
  destruct (if truthy (body_source self) then _ else _) as [loads | e]; [| reflexivity].
  cbn [mbind result_bind rbind].
  destruct (getattr "temperature_distribution" (temperature_distribution self)) as [td | e];
    [| reflexivity].
  cbn [mbind result_bind rbind].
  rewrite bc_loop_redirect. reflexivity.
Qed.

Lemma marks_after_unselecting (facet : nat) (post : list (string * BoundaryCondition)) :
  (forall item, In item post -> boundary (snd item) facet = false) ->
  forall ff : FacetFunction,
    fold_left (fun ff item => mark (boundary (snd item)) ff (boundary_id (snd item)))
      post ff facet = ff facet.
Proof.
  induction post as [| item post IH]; intros Hpost ff.
  - reflexivity.
  - cbn [fold_left]. rewrite IH by (intros it Hin; apply Hpost; right; exact Hin).
    unfold mark. rewrite (Hpost item (or_introl eq_refl)). reflexivity.
Qed.

(** X15.  A facet that no entry selects keeps the mark [0]; a facet carries the id
    of the last entry of the list that selects it.  With boundaries that do
    not overlap every selected facet therefore carries the id of its own
    entry. *)
Theorem facet_marks (items : list (string * BoundaryCondition)) (facet : nat) :
  ((forall item, In item items -> boundary (snd item) facet = false) ->
   mark_boundaries items facet = 0%nat) /\
  (forall pre name bc post,
     items = pre ++ (name, bc) :: post ->
     boundary bc facet = true ->
     (forall item, In item post -> boundary (snd item) facet = false) ->
     mark_boundaries items facet = boundary_id bc).
Proof.
  split.
  - intros Hnone. unfold mark_boundaries. rewrite (marks_after_unselecting facet items Hnone).
    reflexivity.
  - intros pre name bc post -> Hsel Hpost.
    unfold mark_boundaries. rewrite fold_left_app. cbn [fold_left].
    rewrite (marks_after_unselecting facet post Hpost).
    unfold mark. cbn [snd]. rewrite Hsel. reflexivity.
Qed.

End Entries.

(** ** Construction and solving *)

Section Lifecycle.
Context {engine : Engine} {base : Base}.

(** X16.  After [__init__] the body source is a dolfin object, so that whenever
    the assembly of the new solver returns, the integral of the body source
    stands in the form right after the stiffness integral: the load side is
    never empty. *)
Theorem body_source_always_assembled (case_settings : gmap string pyval)
    (time_iter_ : nat) (u_0 u_1 : option Function) (F : Form) (bcs : list DirichletBC) :
  update_boundary_conditions (__init__ case_settings) time_iter_ u_0 u_1 = Ok (F, bcs) ->
  exists sg b rest,
    sigma (__init__ case_settings) (TrialFunction (function_space (__init__ case_settings)))
      = Ok sg /\
    body_source (__init__ case_settings) = PyExpr b /\
    F = stiffness (__init__ case_settings) sg ++
        times (Inner b (TestFunction (function_space (__init__ case_settings)))) dx ++ rest.
Proof.
  destruct (init_body_source case_settings) as [b Hb].
  set (self := __init__ case_settings) in *. clearbody self.
  rewrite update_boundary_conditions_unfolded.
  destruct (lame_parameters (material self)) as [[mu lmbda] | e]; [| discriminate].
  cbn [mbind result_bind rbind].
  destruct (sigma self (TrialFunction (function_space self))) as [sg | e]; [| discriminate].
  cbn [mbind result_bind rbind].
  unfold body_integrals. rewrite Hb. change (truthy (PyExpr b)) with true.
  cbn [as_ufl mbind result_bind rbind].
  destruct (temperature_distribution self) as [td |]; [| discriminate].
  cbn [getattr mbind result_bind rbind].
  destruct (bc_loop _ _ _ _ _ ([], [])) as [[t c] | e]; [| discriminate].
  cbn [mbind result_bind rbind fst snd]. intros Hok. inversion Hok.
  exists sg, b, (fold_left form_add (thermal_integrals self td ++ t) []).
  split; [reflexivity |]. split; [reflexivity |].
  unfold stiffness, times. cbn [app].
  rewrite form_add_front by reflexivity.
  change (form_add [] [?I]) with [I].
  rewrite !fold_form_add_front by reflexivity. reflexivity.
Qed.

Lemma solve_without_flag (self : Solver) :
  solving_modal self = false -> solve self = solve_transient self.
Proof.
  intros Hflag. unfold solve. rewrite Hflag. destruct (solve_transient self); reflexivity.
Qed.

(** X17.  [solve] returns the static displacement or fails: without the modal
    flag it is the static solve, a failure of the static solve is its
    failure, and a value it returns is the one the static solve returned
    (what [solve_modal] computes is dropped). *)
Theorem solve_static_result (self : Solver) :
  (solving_modal self = false -> solve self = solve_transient self) /\
  (forall e, solve_transient self = Err e -> solve self = Err e) /\
  (forall r, solve self = Ok r -> solve_transient self = Ok r).
Proof.
  split; [apply solve_without_flag |]. unfold solve. split.
  - intros e He. rewrite He. reflexivity.
  - intros r. generalize (load_global "F") (load_global "bcs"). intros rF rbcs.
    destruct (solve_transient self) as [u | e]; cbn [mbind result_bind rbind];
      [| discriminate].
    destruct (solving_modal self); [| intros Hok; exact Hok].
    destruct rF as [Fv | e]; cbn [mbind result_bind rbind]; [| discriminate].
    destruct rbcs as [bv | e]; cbn [mbind result_bind rbind]; [| discriminate].
    destruct (as_Form Fv) as [F' | e]; cbn [mbind result_bind rbind]; [| discriminate].
    destruct (as_bcs bv) as [bcs' | e]; cbn [mbind result_bind rbind]; [| discriminate].
    destruct (solve_modal self F' bcs') as [ev | e]; cbn [mbind result_bind rbind];
      [| discriminate].
    intros Hok. exact Hok.
Qed.

Lemma init_solving_modal (case_settings : gmap string pyval) :
  solving_modal (__init__ case_settings) = false.
Proof.
  unfold __init__.
  destruct (truthy (body_source (SolverBase_init case_settings)));
    [| destruct (Nat.eqb (dimension (SolverBase_init case_settings)) 3)];
    destruct (case_settings !! "temperature_distribution");
    reflexivity.
Qed.

(** X18.  A solver as [__init__] leaves it never starts the modal analysis:
    [solve] is the static solve, whatever the settings. *)
Theorem solve_after_init (case_settings : gmap string pyval) :
  solve (__init__ case_settings) = solve_transient (__init__ case_settings).
Proof.
  apply solve_without_flag. apply init_solving_modal.
Qed.

Lemma load_global_outcome (name : string) :
  (exists o, load_global name = Ok o) \/ load_global name = Err (NameError name).
Proof.
  unfold load_global.
  destruct (existsb (String.eqb name) late_module_names); [left; eexists; reflexivity |].
  destruct (dolfin_exports name); [left; eexists; reflexivity |].
  destruct (existsb (String.eqb name) early_module_names); [left; eexists; reflexivity |].
  destruct (builtins name); [left; eexists; reflexivity | right; reflexivity].
Qed.

(** X19.  [energy] cannot return while [v] is bound neither by dolfin's exports
    nor by the builtins: it raises, and with a material for which the two
    divisions are defined the error is a [NameError] on [tr], [eps] or
    [v]. *)
Theorem energy_never_returns
    (energy_calls : R -> R -> pyval -> pyval -> pyval -> result ufl)
    (self : Solver) (u : ufl) :
  dolfin_exports "v" = None ->
  builtins "v" = None ->
  raises (energy energy_calls self u) /\
  (poisson_ratio (material self) <> -1 ->
   poisson_ratio (material self) <> 1 / 2 ->
   energy energy_calls self u = Err (NameError "tr") \/
   energy energy_calls self u = Err (NameError "eps") \/
   energy energy_calls self u = Err (NameError "v")).
Proof.
  intros Hdolfin Hbuiltin.
  assert (Hv : load_global "v" = Err (NameError "v")).
  { unfold load_global.
    change (existsb (String.eqb "v") late_module_names) with false.
    change (existsb (String.eqb "v") early_module_names) with false.
    cbv iota. rewrite Hdolfin, Hbuiltin. reflexivity. }
  split.
  - unfold energy. apply raises_bind. intros [mu lmbda] _.
    apply raises_bind. intros tr_ _. apply raises_bind. intros eps_ _.
    rewrite Hv. exact I.
  - intros Hm1 Hhalf. unfold energy.
    rewrite (lame_parameters_ok _ Hm1 Hhalf). cbn [mbind result_bind rbind].
    pose proof (load_global_outcome "tr") as Htr.
    pose proof (load_global_outcome "eps") as Heps.
    revert Hv Htr Heps.
    generalize (load_global "tr") (load_global "eps") (load_global "v").
    intros rtr reps rv -> [[o ->] | ->] [[o' ->] | ->]; cbn [mbind result_bind rbind]; auto.
Qed.

End Lifecycle.

(** ** The initial field and the function space *)

(** X20.  Once [get_internal_field] has returned, a second call on the attribute
    it left returns the same field and leaves the attribute as it is. *)
Theorem get_internal_field_idempotent (interpolate : ufl -> FunSpace -> result Function)
    (self : Solver) (initial_values after : pyval) (d0 : Function) :
  get_internal_field interpolate self initial_values = Ok (d0, after) ->
  get_internal_field interpolate self after = Ok (d0, after).
Proof.
  unfold get_internal_field.
  destruct (truthy initial_values) eqn:Htruthy; cbn [negb].
  - destruct initial_values; cbn; try discriminate.
    destruct (interpolate e (function_space self)) as [f | err] eqn:Hint; cbn; [| discriminate].
    intros Hok. inversion Hok. subst. cbn. rewrite Hint. reflexivity.
  - destruct (Nat.eqb (dimension self) 3); cbn;
      match goal with
      | |- context [interpolate ?e ?V] =>
          destruct (interpolate e V) as [f | err] eqn:Hint; cbn; [| discriminate]
      end;
      intros Hok; inversion Hok; subst; cbn; rewrite Hint; reflexivity.
Qed.

(** X21.  An initial value that is true without being a dolfin expression or
    constant (a number other than zero, a list that is not empty) leaves
    [d0] unassigned: the call raises on the name [d0]. *)
Theorem get_internal_field_unbound (interpolate : ufl -> FunSpace -> result Function)
    (self : Solver) (initial_values : pyval) :
  truthy initial_values = true ->
  is_Expression_or_Constant initial_values = None ->
  get_internal_field interpolate self initial_values = Err (NameError "d0").
Proof.
  intros Htruthy Hkind. unfold get_internal_field. rewrite Htruthy. cbn [negb].
  rewrite Hkind. reflexivity.
Qed.

(** X22.  After [set_function_space] the mesh of the solver is the mesh of its
    function space (the periodic constructor building over the mesh it is
    given).  A function space that is passed in is stored as it is, whether
    or not a periodic boundary comes with it; a mesh gives the first-order
    vector space over it, whose trial functions have as many components as
    the mesh has dimensions. *)
Theorem set_function_space_consistent (periodic_space : Mesh -> SubDomain -> FunSpace)
    (self : Solver) (mesh_or_function_space : Mesh + FunSpace)
    (periodic_boundary : option SubDomain) :
  (forall m pb, space_mesh (periodic_space m pb) = m) ->
  let after := fst (set_function_space periodic_space self mesh_or_function_space
                      periodic_boundary) in
  mesh after = space_mesh (function_space after) /\
  (forall V, mesh_or_function_space = inr V ->
     function_space after = V /\
     set_function_space periodic_space self mesh_or_function_space periodic_boundary =
     set_function_space periodic_space self mesh_or_function_space None) /\
  (forall m, mesh_or_function_space = inl m -> periodic_boundary = None ->
     ufl_len (TrialFunction (function_space after)) = Ok (geometric_dimension m)).
Proof.
  intros Hperiodic after. subst after. unfold set_function_space.
  split; [| split].
  - destruct mesh_or_function_space as [m | V]; [destruct periodic_boundary as [pb |] |];
      cbn; [rewrite Hperiodic | |]; reflexivity.
  - intros V ->. cbn. split; reflexivity.
  - intros m -> ->. reflexivity.
Qed.

(** ** Instances of the further properties *)

Lemma steel_lame : lame_parameters steel = Ok (steel_mu, steel_lmbda).
Proof. apply lame_parameters_ok; cbn; lra. Qed.

Lemma cube_sigma :
  sigma (solver_with [] None false) (Coefficient dilation) = Ok cube_stress_tree.
Proof.
  unfold sigma. change (material (solver_with [] None false)) with steel.
  rewrite steel_lame. reflexivity.
Qed.

Lemma cube_strain :
  eval [] (Sym (Grad (Coefficient dilation))) = Some (Matrix 3 3 dilation_strain).
Proof. reflexivity. Qed.

Lemma plate_strain :
  eval [] (Sym (Grad (Coefficient dilation2))) = Some (Matrix 2 2 dilation_strain).
Proof. reflexivity. Qed.

Lemma cube_stress :
  eval [] cube_stress_tree =
  Some (Matrix 3 3 (fun i j =>
          2 * steel_mu * dilation_strain i j +
          steel_lmbda * rsum 3 (fun k => dilation_strain k k) * kron i j)).
Proof. apply (eval_stress_tree [] _ 3 _ _ dilation_strain cube_strain). Qed.

Lemma dilation_strain_diagonal (i j : nat) : dilation_strain i j = 2 * kron i j.
Proof. unfold dilation_strain. rewrite kron_sym. lra. Qed.



Lemma degenerate_material_fails_witness :
  sigma rubber_solver (Coefficient dilation) = Err ZeroDivisionError /\
  @von_Mises (engine_with_area 1) rubber_solver (Coefficient dilation) = Err ZeroDivisionError /\
  @update_boundary_conditions (engine_with_area 1) cold_base rubber_solver 1 None None =
    Err ZeroDivisionError.
Proof.
  apply (@degenerate_material_fails (engine_with_area 1) cold_base rubber_solver
           (Coefficient dilation) 1 None None).
  right. reflexivity.
Defined.

Lemma sigma_symmetric_witness :
  exists d stress,
    eval [] cube_stress_tree = Some (Matrix d d stress) /\
    stress 0%nat 1%nat = stress 1%nat 0%nat.
Proof.
  destruct (sigma_symmetric (solver_with [] None false) (Coefficient dilation)
              cube_stress_tree [] _ cube_sigma cube_stress)
    as (d & stress & _ & Hvalue & Hsym).
  exists d, stress. split.
  - rewrite <- Hvalue. exact cube_stress.
  - apply Hsym.
Defined.

Lemma sigma_trace_witness :
  rsum 3 (fun k =>
            2 * steel_mu * dilation_strain k k +
            steel_lmbda * rsum 3 (fun l => dilation_strain l l) * kron k k) =
  (2 * steel_mu + INR 3 * steel_lmbda) * rsum 3 (fun k => dilation_strain k k).
Proof.
  apply (sigma_trace (solver_with [] None false) (Coefficient dilation) cube_stress_tree []
           3 dilation_strain _ steel_mu steel_lmbda steel_lame cube_sigma cube_strain
           cube_stress).
Defined.

Lemma von_Mises_defined_witness :
  exists vm r,
    von_Mises_expr (solver_with [] None false) (Coefficient dilation) = Ok vm /\
    eval [] vm = Some (Scalar r) /\ 0 <= r.
Proof.
  apply (von_Mises_defined (solver_with [] None false) (Coefficient dilation) 3 []
           dilation_strain steel_mu steel_lmbda steel_lame eq_refl eq_refl cube_strain).
Defined.

Lemma von_Mises_dilation_3d_witness :
  exists vm,
    von_Mises_expr (solver_with [] None false) (Coefficient dilation) = Ok vm /\
    eval [] vm = Some (Scalar 0).
Proof.
  apply (von_Mises_dilation_3d (solver_with [] None false) (Coefficient dilation) []
           dilation_strain 2 steel_mu steel_lmbda steel_lame eq_refl eq_refl cube_strain).
  intros i j _ _. apply dilation_strain_diagonal.
Defined.

Lemma von_Mises_dilation_2d_witness :
  exists vm r,
    von_Mises_expr plate_solver (Coefficient dilation2) = Ok vm /\
    eval [] vm = Some (Scalar r) /\
    r = sqrt (2 * (2 * steel_mu + 2 * steel_lmbda) * (2 * (2 * steel_mu + 2 * steel_lmbda)) / 3) /\
    (r = 0 <-> 2 * (2 * steel_mu + 2 * steel_lmbda) = 0).
Proof.
  apply (von_Mises_dilation_2d plate_solver (Coefficient dilation2) []
           dilation_strain 2 steel_mu steel_lmbda steel_lame eq_refl eq_refl plate_strain).
  intros i j _ _. apply dilation_strain_diagonal.
Defined.

Lemma bc_loop_fails_fast_witness :
  @bc_loop (engine_with_area 1) V3 (TestFunction V3) (set_all 0) (FacetNormal unit_cube)
    ([("fixed", fixed_face)] ++ ("mirror", mirror_face) :: [("load", pushed_face)]) ([], []) =
  Err (SolverError "thermal boundary type`symmetry` is not supported").
Proof.
  apply (@bc_loop_fails_fast (engine_with_area 1) V3 (TestFunction V3) (set_all 0)
           (FacetNormal unit_cube) [("fixed", fixed_face)] [("load", pushed_face)]
           "mirror" mirror_face ([], []) _ _ eq_refl eq_refl).
Defined.

Lemma assembled_pair_contents_witness :
  exists F bcs,
    @update_boundary_conditions (engine_with_area 1) cold_base
      (solver_with (map dirichlet_entry clamped_twice) (Some PyNone) false) 1 None None =
      Ok (F, bcs) /\
    (forall c, In c bcs ->
       dbc_markers c = mark_boundaries (map dirichlet_entry clamped_twice)) /\
    (forall I, In I F ->
       measure I = dx \/
       exists name bc,
         In (name, bc) (map dirichlet_entry clamped_twice) /\
         integral_of (mark_boundaries (map dirichlet_entry clamped_twice)) bc I).
Proof.
  destruct (@dirichlet_entries_assembled (engine_with_area 1) cold_base
              (solver_with (map dirichlet_entry clamped_twice) (Some PyNone) false)
              1 None None clamped_twice (steel_ready _ _ _) eq_refl) as [F HF].
  destruct (@assembled_pair_contents (engine_with_area 1) cold_base _ 1 None None F _ HF)
    as (Hconstraints & Hintegrals).
  eexists F, _. split; [exact HF |]. split.
  - intros c Hin. destruct (Hconstraints c Hin) as (name & bc & _ & Hmarks & _).
    exact Hmarks.
  - exact Hintegrals.
Defined.

Lemma per_axis_constraints_witness :
  exists new,
    @bc_step (engine_with_area 1) V3 (TestFunction V3) (set_all 0) (FacetNormal unit_cube)
      ([], []) (mkBC bottom_face 1 "displacement" (PyList [PyNum 0; PyNone; PyNum 1]) None) =
      Ok ([], new) /\
    In (mkDirichletBC (SubSpace V3 2) (ConstantS 1) (set_all 0) 1) new /\
    (length new <= 3)%nat.
Proof.
  destruct (@per_axis_constraints (engine_with_area 1) V3 (TestFunction V3) (set_all 0)
              (FacetNormal unit_cube) [] [] bottom_face 1 "displacement" None
              [Some 0; None; Some 1] 3) as (new & Hstep & Hin & Hlen).
  - right. reflexivity.
  - reflexivity.
  - cbn. lia.
  - exists new. split; [exact Hstep |]. split; [| exact Hlen].
    apply Hin. exists 2%nat, 1. split; [reflexivity |]. split; [lra | reflexivity].
Defined.

Lemma facet_marks_witness :
  mark_boundaries [("fixed", fixed_face); ("load", pushed_face)] 7%nat = 0%nat /\
  mark_boundaries [("fixed", fixed_face); ("load", pushed_face)] 0%nat = 1%nat.
Proof.
  destruct (facet_marks [("fixed", fixed_face); ("load", pushed_face)] 7) as [Hnone _].
  destruct (facet_marks [("fixed", fixed_face); ("load", pushed_face)] 0) as [_ Hlast].
  split.
  - apply Hnone. intros item [<- | [<- | []]]; reflexivity.
  - apply (Hlast [] "fixed" fixed_face [("load", pushed_face)] eq_refl eq_refl).
    intros item [<- | []]. reflexivity.
Defined.

Lemma cold_init :
  @__init__ cold_base cold_settings =
  mkSolver 3 steel (PyExpr (ConstantV [0; 0; 0])) [("fixed", fixed_face)] 293 unit_cube V3
    (Some true) (Some PyNone) false.
Proof. reflexivity. Qed.

Lemma cold_ready :
  loads_ready
    (mkSolver 3 steel (PyExpr (ConstantV [0; 0; 0])) [("fixed", fixed_face)] 293 unit_cube V3
       (Some true) (Some PyNone) false).
Proof.
  unfold loads_ready. cbn. repeat split.
  - lra.
  - lra.
  - exists 3%nat. reflexivity.
  - eexists. reflexivity.
  - eexists. reflexivity.
Qed.

Lemma body_source_always_assembled_witness :
  exists F bcs sg rest,
    @update_boundary_conditions (engine_with_area 1) cold_base
      (@__init__ cold_base cold_settings) 1 None None = Ok (F, bcs) /\
    F = stiffness (@__init__ cold_base cold_settings) sg ++
        times (Inner (ConstantV [0; 0; 0]) (TestFunction V3)) dx ++ rest.
Proof.
  destruct (@dirichlet_entries_assembled (engine_with_area 1) cold_base
              (@__init__ cold_base cold_settings) 1 None None
              [("fixed", bottom_face, 1%nat, ConstantV [0; 0; 0])]) as [F HF].
  - rewrite cold_init. exact cold_ready.
  - rewrite cold_init. reflexivity.
  - destruct (@body_source_always_assembled (engine_with_area 1) cold_base cold_settings
                1 None None F _ HF) as (sg & b & rest & _ & Hb & HF').
    rewrite cold_init in Hb. cbn in Hb. inversion Hb. subst b.
    exists F. eexists. exists sg, rest. split; [exact HF |].
    rewrite HF'. rewrite cold_init. reflexivity.
Defined.

Lemma solve_static_result_witness :
  @solve (engine_with_area 1) cold_base (solver_with [] None false) = Ok zero_field /\
  @solve_transient cold_base (solver_with [] None false) = Ok zero_field /\
  @solve (engine_with_area 1) failing_base (solver_with [] None true) = Err EngineError.
Proof.
  destruct (@solve_static_result (engine_with_area 1) cold_base (solver_with [] None false))
    as (Hstatic & _ & Hvalue).
  destruct (@solve_static_result (engine_with_area 1) failing_base (solver_with [] None true))
    as (_ & Hfails & _).
  split; [| split].
  - rewrite (Hstatic eq_refl). reflexivity.
  - apply Hvalue. rewrite (Hstatic eq_refl). reflexivity.
  - apply Hfails. reflexivity.
Defined.

Lemma energy_never_returns_witness :
  raises (@energy engine_with_tr (fun _ _ _ _ _ => Ok (FloatValue 0))
            (solver_with [] None false) (Coefficient dilation)) /\
  (@energy engine_with_tr (fun _ _ _ _ _ => Ok (FloatValue 0)) (solver_with [] None false)
     (Coefficient dilation) = Err (NameError "tr") \/
   @energy engine_with_tr (fun _ _ _ _ _ => Ok (FloatValue 0)) (solver_with [] None false)
     (Coefficient dilation) = Err (NameError "eps") \/
   @energy engine_with_tr (fun _ _ _ _ _ => Ok (FloatValue 0)) (solver_with [] None false)
     (Coefficient dilation) = Err (NameError "v")).
Proof.
  destruct (@energy_never_returns engine_with_tr (fun _ _ _ _ _ => Ok (FloatValue 0))
              (solver_with [] None false) (Coefficient dilation) eq_refl eq_refl)
    as (Hraises & Hname).
  split; [exact Hraises |].
  apply Hname; cbn; lra.
Defined.

Lemma get_internal_field_idempotent_witness :
  get_internal_field sample (solver_with [] None false) (PyExpr (ConstantV [0; 0; 0])) =
  Ok (mkFunction V3 (fun _ i => nth i [0; 0; 0] 0) (fun _ _ _ => 0),
      PyExpr (ConstantV [0; 0; 0])).
Proof.
  apply (get_internal_field_idempotent sample (solver_with [] None false) PyNone).
  reflexivity.
Defined.

Lemma get_internal_field_unbound_witness :
  get_internal_field sample (solver_with [] None false)
    (PyList [PyNum 0; PyNum 0; PyNum 0]) = Err (NameError "d0").
Proof.
  apply (get_internal_field_unbound sample (solver_with [] None false)
           (PyList [PyNum 0; PyNum 0; PyNum 0]) eq_refl eq_refl).
Defined.

Lemma set_function_space_consistent_witness :
  function_space
    (fst (set_function_space (fun m _ => VectorFunctionSpace m "CG" 1) plate_solver
            (inr V3) (Some everywhere))) = V3 /\
  mesh
    (fst (set_function_space (fun m _ => VectorFunctionSpace m "CG" 1) plate_solver
            (inr V3) (Some everywhere))) = unit_cube /\
  ufl_len (TrialFunction (function_space
    (fst (set_function_space (fun m _ => VectorFunctionSpace m "CG" 1) plate_solver
            (inl unit_cube) None)))) = Ok 3%nat.
Proof.
  destruct (set_function_space_consistent (fun m _ => VectorFunctionSpace m "CG" 1)
              plate_solver (inr V3) (Some everywhere) (fun _ _ => eq_refl))
    as (Hmesh & Hspace & _).
  destruct (set_function_space_consistent (fun m _ => VectorFunctionSpace m "CG" 1)
              plate_solver (inl unit_cube) None (fun _ _ => eq_refl))
    as (_ & _ & Hlen).
  split; [| split].
  - apply (Hspace V3 eq_refl).
  - rewrite Hmesh. destruct (Hspace V3 eq_refl) as [-> _]. reflexivity.
  - apply (Hlen unit_cube eq_refl eq_refl).
Defined.
